(** * exif-google-gps: a shallow embedding of [exif-google-gps.py]

    The script matches the capture time of a JPEG against a Google location
    history and writes the position found into the GPS block of the EXIF
    metadata.  This development embeds the two classes of the script,
    [GeoData] (the location index) and [JpegFile] (timestamp extraction and
    coordinate encoding), and [main]: the loop over the photos and the
    arguments it hands on.

    Numbers.  Python's numbers are modelled in two ways, each where it
    matters:
    - in [GeoData] the timestamps and coordinates of the samples, the query
      time and [max_delta] are exact rationals in canonical form ([Qc]);
      Python's [==] on numbers is then Leibniz equality, [/] is true
      division, and the rounding of binary64 division and subtraction is
      left out;
    - in [JpegFile.write_lat_lng] a coordinate is a binary64 float
      ([spec_float], the Standard Library's specification of IEEE 754),
      because the degrees, minutes and seconds the method writes depend on
      the rounding of each operation.
    The two meet in [Main.photo]: the float of a coordinate is the float
    nearest to the rational, which is what Python computed for
    [latitudeE7 / 10000000].

    Library code ([pickle], [datetime.strptime], [time.mktime], [piexif])
    is a parameter of the definitions that call it, or is modelled by its
    contract where the claims need its result ([int], [round], [str],
    [Fraction], [str.find], [str.replace], [sorted]). *)

From Stdlib Require Import ZArith QArith Qabs Qcanon Qcabs Qround Lqa Floats.
From stdpp Require Import base numbers strings list sorting gmap.

Local Open Scope Z_scope.

(** ** Python exceptions and the result of a call *)

(** The exceptions the embedded code can raise, each with what tells one
    raise site from another. *)
Inductive exn : Type :=
| ValueError (msg : string)
    (* raise ValueError('...') with a fixed message *)
| ValueErrorOf (ts : Qc)
    (* raise ValueError(ts): the argument is the query time *)
| ValueErrorFormat (msg : string) (args : list Z)
    (* raise ValueError(msg.format(...)) *)
| IndexError
| TypeError (msg : string)
| AttributeError (obj attr : string)
| OverflowError (msg : string)
| UnicodeDecodeError
| FileNotFoundError (path : string).

Inductive result (A : Type) : Type :=
| Ok (a : A)
| Raise (e : exn).
Arguments Ok {A} a.
Arguments Raise {A} e.

(** [result] is a monad: a raised exception skips the rest of the block. *)
Global Instance result_bind : MBind result := λ A B k r,
  match r with
  | Ok a => k a
  | Raise e => Raise e
  end.

Global Instance result_ret : MRet result := λ A a, Ok a.

(** [l[i]] for a Python list and a non-negative index: out of range it
    raises [IndexError]. *)
Definition getitem {A} (l : list A) (i : nat) : result A :=
  match l !! i with
  | Some a => Ok a
  | None => Raise IndexError
  end.

(** ** GeoData: the location index *)

Module GeoData.

Local Open Scope Qc_scope.

(** One stored tuple [(timestamp, latitude, longitude)]. *)
Definition sample : Type := Qc * Qc * Qc.

Definition timestamp (x : sample) : Qc := x.1.1.
Definition latitude (x : sample) : Qc := x.1.2.
Definition longitude (x : sample) : Qc := x.2.

(** An entry of the location history: [timestampMs] after [int(...)], and
    the two fixed-point integers. *)
Record location : Type := Location {
  timestampMs : Z;
  latitudeE7 : Z;
  longitudeE7 : Z
}.

(** [self._d]: a [set] while the history is read, a [list] once compiled
    (or loaded from the pickled cache). *)
Inductive store : Type :=
| PySet (s : gset sample)
| PyList (l : list sample).

(** Python 3's [a / b] on integers, for a positive constant [b]. *)
Definition truediv (a : Z) (b : positive) : Qc := Q2Qc (a # b).

(** [save]: [self._d.add((int(ms) / 1000, lat / 10000000, lng / 10000000))].
    A list has no [add]. *)
Definition save (st : store) (loc : location) : result store :=
  match st with
  | PySet s =>
      Ok (PySet ({[ (truediv (timestampMs loc) 1000,
                     truediv (latitudeE7 loc) 10000000,
                     truediv (longitudeE7 loc) 10000000) ]} ∪ s))
  | PyList _ => Raise (AttributeError "list" "add")
  end.

(** Python's order on tuples: the first component that differs decides. *)
Definition sample_le (x y : sample) : Prop :=
  timestamp x < timestamp y ∨
  (timestamp x = timestamp y ∧
   (latitude x < latitude y ∨
    (latitude x = latitude y ∧ longitude x ≤ longitude y))).

Global Instance sample_le_dec : RelDecision sample_le.
Proof. intros x y. unfold sample_le. apply _. Defined.

(** [sorted(s)] on a set of tuples. *)
Definition py_sorted (s : gset sample) : list sample :=
  merge_sort sample_le (elements s).

(** [compile]: [if not isinstance(self._d, list): self._d = sorted(self._d)]. *)
Definition compile (st : store) : store :=
  match st with
  | PySet s => PyList (py_sorted s)
  | PyList l => PyList l
  end.

(** The loop of [__init__] over the entries of the history:
    [for location in ...: self.save(location)]. *)
Fixpoint save_all (st : store) (locations : list location) : result store :=
  match locations with
  | [] => Ok st
  | loc :: rest => st ← save st loc; save_all st rest
  end.

(** [dump]: [self.compile(); return pickle.dumps(self._d)].  The pickle
    module is outside the repository: [pickle_dumps] stands for it, a
    function from the pickled value to bytes.  The result is the new state
    of [self._d] and the bytes. *)
Section Dump.
Context {bytes : Type} (pickle_dumps : store → bytes).

Definition dump (st : store) : store * bytes :=
  let st' := compile st in
  (st', pickle_dumps st').

(** [__init__]: with a cache file, [self._d] is what the file held; without
    one, the history is read into a set and [dump] compiles it and gives
    the bytes of the new cache file. *)
Definition init (cache : option store) (locations : list location)
  : result (store * option bytes) :=
  match cache with
  | Some d => Ok (d, None)
  | None =>
      st ← save_all (PySet ∅) locations;
      Ok ((dump st).1, Some (dump st).2)
  end.

End Dump.

(** The states [self._d] goes through: [set()] in [__init__], [add] in
    [save], [sorted] in [compile] (a cache file holds a list that [dump]
    pickled after [compile]). *)
Inductive reachable : store → Prop :=
| reachable_init : reachable (PySet ∅)
| reachable_save st loc st' :
    reachable st → save st loc = Ok st' → reachable st'
| reachable_compile st :
    reachable st → reachable (compile st).

(** The error messages of [search], under the names the specification
    gives the three failures. *)
Definition InsufficientData : exn := ValueError "No data available".
Definition ToleranceExceeded : exn := ValueError "Max delta".
Definition NoBracketingInterval (ts : Qc) : exn := ValueErrorOf ts.

(** The body of the [for] loop of [search] at the pair [(a, b)] =
    [(self._d[idx], self._d[idx+1])]: [None] is [continue]. *)
Definition search_pair (a b : sample) (ts max_delta : Qc)
  : option (result (Qc * Qc)) :=
  let delta_prev := timestamp a - ts in
  let delta_post := timestamp b - ts in
  if negb (bool_decide (delta_prev ≤ 0) && bool_decide (0 ≤ delta_post))
  then None
  else if bool_decide (max_delta < delta_prev)
          && bool_decide (max_delta < delta_post)
  then Some (Raise ToleranceExceeded)
  else if bool_decide (Qcabs delta_prev < Qcabs delta_post)
  then Some (Ok (latitude a, longitude a))
  else Some (Ok (latitude b, longitude b)).

(** [for idx in range(0, len(self._d) - 1): ...] followed by
    [raise ValueError(ts)]. *)
Fixpoint search_loop (d : list sample) (ts max_delta : Qc) (idxs : list nat)
  : result (Qc * Qc) :=
  match idxs with
  | [] => Raise (NoBracketingInterval ts)
  | idx :: rest =>
      a ← getitem d idx;
      b ← getitem d (idx + 1);
      match search_pair a b ts max_delta with
      | None => search_loop d ts max_delta rest
      | Some r => r
      end
  end.

(** [len(self._d)]. *)
Definition len (st : store) : nat :=
  match st with
  | PySet s => size s
  | PyList l => length l
  end.

(** [search(ts, max_delta)].  A set cannot be subscripted: with two or more
    elements the first turn of the loop raises [TypeError]. *)
Definition search (st : store) (ts max_delta : Qc) : result (Qc * Qc) :=
  if bool_decide (len st < 2)%nat then Raise InsufficientData
  else match st with
       | PyList d => search_loop d ts max_delta (seq 0 (length d - 1))
       | PySet _ => Raise (TypeError "'set' object is not subscriptable")
       end.

(** *** Vocabulary of the claims about [search] *)

(** The samples are in non-decreasing order of timestamp: what [compile]
    establishes (lemma [py_sorted_ts_sorted] below) and [search] assumes. *)
Definition ts_le (x y : sample) : Prop := timestamp x ≤ timestamp y.

Global Instance ts_le_dec : RelDecision ts_le.
Proof. intros x y. unfold ts_le. apply _. Defined.

Definition ts_sorted (d : list sample) : Prop := StronglySorted ts_le d.

Global Instance ts_sorted_dec (d : list sample) : Decision (ts_sorted d).
Proof. unfold ts_sorted. apply _. Defined.

(** The pair [(d[i], d[i+1])] brackets [ts]. *)
Definition brackets (d : list sample) (ts : Qc) (i : nat) : Prop :=
  ∃ a b, d !! i = Some a ∧ d !! S i = Some b ∧
         timestamp a ≤ ts ∧ ts ≤ timestamp b.

(** Absolute distance in time between a sample and the query. *)
Definition dist (x : sample) (ts : Qc) : Qc := Qcabs (timestamp x - ts).

(** The coordinate [search] returns for a sample. *)
Definition coordinate (x : sample) : Qc * Qc := (latitude x, longitude x).

(** The samples of the scenarios of the specification. *)
Definition scenario : list sample :=
  [ (Qc_of_Z 100, Qc_of_Z 10, Qc_of_Z 20);
    (Qc_of_Z 200, Qc_of_Z 11, Qc_of_Z 21) ].

Definition scenario_zero : list sample :=
  [ (Qc_of_Z 100, Qc_of_Z 0, Qc_of_Z 0);
    (Qc_of_Z 200, Qc_of_Z 0, Qc_of_Z 0) ].

(** The tuple [save] adds for an entry of the history. *)
Definition stored (loc : location) : sample :=
  (truediv (timestampMs loc) 1000,
   truediv (latitudeE7 loc) 10000000,
   truediv (longitudeE7 loc) 10000000).

(** *** [search] with the [max_delta] that [main] passes

    [main] calls [geo.search(..., max_delta=args.max_delta)], and
    [add_argument('--max-delta', default=60*15, ...)] has no [type=]:
    [args.max_delta] is the int 900 when the option is absent and the
    [str] of the command line when it is given.  [delta_prev] and
    [delta_post] are floats (a stored timestamp is the quotient of a true
    division), and in Python 3 [float > str] raises [TypeError]. *)
Inductive arg : Type :=
| Num (x : Qc)
| Text (s : string).

(** [delta > max_delta]. *)
Definition gt (delta : Qc) (max_delta : arg) : result bool :=
  match max_delta with
  | Num m => Ok (bool_decide (m < delta))
  | Text _ =>
      Raise (TypeError "'>' not supported between instances of 'float' and 'str'")
  end.

(** The body of the loop of [search]; [and] evaluates its second operand
    only when the first is true. *)
Definition search_pair_arg (a b : sample) (ts : Qc) (max_delta : arg)
  : option (result (Qc * Qc)) :=
  let delta_prev := timestamp a - ts in
  let delta_post := timestamp b - ts in
  if negb (bool_decide (delta_prev ≤ 0) && bool_decide (0 ≤ delta_post))
  then None
  else Some (
    prev ← gt delta_prev max_delta;
    both ← match prev with
           | true => gt delta_post max_delta
           | false => Ok false
           end;
    match both with
    | true => Raise ToleranceExceeded
    | false =>
        if bool_decide (Qcabs delta_prev < Qcabs delta_post)
        then Ok (latitude a, longitude a)
        else Ok (latitude b, longitude b)
    end).

Fixpoint search_loop_arg (d : list sample) (ts : Qc) (max_delta : arg)
    (idxs : list nat) : result (Qc * Qc) :=
  match idxs with
  | [] => Raise (NoBracketingInterval ts)
  | idx :: rest =>
      a ← getitem d idx;
      b ← getitem d (idx + 1);
      match search_pair_arg a b ts max_delta with
      | None => search_loop_arg d ts max_delta rest
      | Some r => r
      end
  end.

Definition search_arg (st : store) (ts : Qc) (max_delta : arg)
  : result (Qc * Qc) :=
  if bool_decide (len st < 2)%nat then Raise InsufficientData
  else match st with
       | PyList d => search_loop_arg d ts max_delta (seq 0 (length d - 1))
       | PySet _ => Raise (TypeError "'set' object is not subscriptable")
       end.

(** *** [__init__] and the files it reads and writes *)

(** An entry of ['locations'] as [json.load] returns it: a dict, of which
    [save] reads three keys.  Their values are taken to be what a Takeout
    file holds (a string of digits for ['timestampMs'], ints for the two
    others), so that [int(...)] and [/] return: the dict maps a key to
    the int read from its value.  What the model keeps is that a key can
    be missing, and [location[key]] then raises [KeyError]. *)
Abbreviation entry := (gmap string Z).

(** The three subscripts of [save], in the order the tuple evaluates
    them: the entry as [save] reads it, or the key of the [KeyError]. *)
Definition subscripts (x : entry) : location + string :=
  match x !! "timestampMs" with
  | None => inr "timestampMs"
  | Some t =>
      match x !! "latitudeE7" with
      | None => inr "latitudeE7"
      | Some la =>
          match x !! "longitudeE7" with
          | None => inr "longitudeE7"
          | Some lo => inl (Location t la lo)
          end
      end
  end.

(** The entries in the order of the loop, up to the first [KeyError]. *)
Fixpoint subscripts_all (entries : list entry) : list location + string :=
  match entries with
  | [] => inl []
  | x :: rest =>
      match subscripts x with
      | inr key => inr key
      | inl loc =>
          match subscripts_all rest with
          | inr key => inr key
          | inl locations => inl (loc :: locations)
          end
      end
  end.


(** A file of [GeoData] holds a pickle or a history.  [Cache d] is a file
    that [pickle.dumps d] wrote, from which [pickle.load] returns [d] (the
    contract of [pickle]); [History entries] is a JSON file whose
    ['locations'] entry [json.load] reads as [entries].  On a JSON file
    [pickle.load] raises [pickle.UnpicklingError], which is no [IOError];
    a pickle is binary and starts with the byte 0x80, so reading it as
    UTF-8 text raises [UnicodeDecodeError]. *)
Inductive content : Type :=
| Cache (d : store)
| History (entries : list entry).

Inductive init_error : Type :=
| UnpicklingError
| KeyError (key : string)
| Exn (e : exn).

(** [os.path.splitext] belongs to Python's library: a parameter. *)
Section Init.
Context (splitext : string → string * string).

(** [name, _ = os.path.splitext(locations_json)] and
    [dump_file = name + '.bin']. *)
Definition dump_file (locations_json : string) : string :=
  (splitext locations_json).1 +:+ ".bin".

(** [GeoData(locations_json)]: the store of the new object and the files
    after the call, or the exception. *)
Definition __init__ (fs : gmap string content) (locations_json : string)
  : (store * gmap string content) + init_error :=
  match fs !! dump_file locations_json with
  | Some (Cache d) => inl (d, fs)
  | Some (History _) => inr UnpicklingError
  | None =>                                              (* except IOError *)
      match fs !! locations_json with
      | None => inr (Exn (FileNotFoundError locations_json))
      | Some (Cache _) => inr (Exn UnicodeDecodeError)
      | Some (History entries) =>
          match subscripts_all entries with
          | inr key => inr (KeyError key)
          | inl locations =>
              match save_all (PySet ∅) locations with
              | Raise e => inr (Exn e)
              | Ok st =>
                  let st' := compile st in               (* self.dump() *)
                  inl (st', <[dump_file locations_json := Cache st']> fs)
              end
          end
      end
  end.

End Init.

End GeoData.

(** ** Python's [float], [int], [round], [str] and [Fraction]

    A Python float is a binary64 number: [spec_float], the Standard
    Library's specification of IEEE 754, at [prec = 53], [emax = 1024];
    [SF64sub] and [SF64mul] are its correctly rounded [-] and [*]. *)

Module PyFloat.

(** The float nearest to a rational (ties to even): the value of a float
    literal, of [int / int] and of [float(int)].  The quotient is taken
    with 56 bits or more and a sticky bit, and [binary_normalize] rounds
    it. *)
Definition Q2SF (q : Q) : spec_float :=
  let a := Qnum q in
  let b := Zpos (Qden q) in
  match a with
  | 0 => S754_zero false
  | _ =>
      let k := Z.max 0 (Z.log2 b - Z.log2 (Z.abs a) + 56) in
      let n := Z.abs a * 2 ^ k in
      let m := 2 * (n / b) + (if n mod b =? 0 then 0 else 1) in
      binary_normalize prec emax (if a <? 0 then - m else m) (- k - 1) false
  end.

(** The rational a finite float denotes. *)
Definition SF2Q (x : spec_float) : option Q :=
  match x with
  | S754_zero _ => Some 0%Q
  | S754_finite s m e =>
      let v := if 0 <=? e then inject_Z (Zpos m * 2 ^ e)
               else Zpos m # Z.to_pos (2 ^ (- e)) in
      Some (if s then Qopp v else v)
  | _ => None
  end.

(** The integer part of a rational (towards zero). *)
Definition Qtrunc (q : Q) : Z :=
  if Qle_bool 0 q then Qfloor q else - Qfloor (- q).

(** A finite float below [2 ^ B] in magnitude, with an exponent that the
    format allows.  (Every finite binary64 float is below [2 ^ 1024].) *)
Definition bounded (x : spec_float) (B : Z) : Prop :=
  match x with
  | S754_zero _ => True
  | S754_finite _ m e => Zpos (digits2_pos m) + e <= B ∧ e <= 971
  | _ => False
  end.

(** [x < y] on floats (false when one is a NaN). *)
Definition float_lt (x y : spec_float) : bool := SFltb x y.

(** [float(z)] as the arithmetic operators convert an [int] operand. *)
Definition float_of_int (z : Z) : result spec_float :=
  match Q2SF (inject_Z z) with
  | S754_infinity _ => Raise (OverflowError "int too large to convert to float")
  | x => Ok x
  end.

(** [int(x)]: truncation towards zero. *)
Definition py_int (x : spec_float) : result Z :=
  match x with
  | S754_nan => Raise (ValueError "cannot convert float NaN to integer")
  | S754_infinity _ =>
      Raise (OverflowError "cannot convert float infinity to integer")
  | S754_zero _ => Ok 0
  | S754_finite s m e =>
      let q := if 0 <=? e then Zpos m * 2 ^ e else Zpos m / 2 ^ (- e) in
      Ok (if s then - q else q)
  end.

(** [x - z] and [x * z] for a float [x] and an int [z]. *)
Definition float_sub_int (x : spec_float) (z : Z) : result spec_float :=
  y ← float_of_int z; Ok (SF64sub x y).

Definition float_mul_int (x : spec_float) (z : Z) : result spec_float :=
  y ← float_of_int z; Ok (SF64mul x y).

(** The float 60.0. *)
Definition sixty : spec_float := Eval vm_compute in Q2SF 60.

(** Rounding of a rational to the nearest integer, ties to even. *)
Definition round_half_even (y : Q) : Z :=
  let f := Qfloor y in
  match (y - inject_Z f ?= 1 # 2)%Q with
  | Lt => f
  | Gt => f + 1
  | Eq => if Z.even f then f else f + 1
  end.

Definition pow10 (p : Z) : Q :=
  if 0 <=? p then inject_Z (10 ^ p) else 1 # Z.to_pos (10 ^ (- p)).

(** [round(x, ndigits)] for a float: the exact value of [x] is rounded to
    [ndigits] decimals (ties to even) and that decimal is read back as a
    float; zero keeps the sign of [x]; infinities and NaN round to
    themselves. *)
Definition py_round (x : spec_float) (ndigits : Z) : spec_float :=
  match SF2Q x with
  | None => x
  | Some v =>
      match round_half_even (v * pow10 ndigits) with
      | 0 => S754_zero (match x with
                        | S754_zero s | S754_finite s _ _ => s
                        | _ => false
                        end)
      | n => Q2SF (inject_Z n * pow10 (- ndigits))
      end
  end.

(** Two floats are the same datum. *)
Definition SF_same (x y : spec_float) : bool :=
  match x, y with
  | S754_zero s, S754_zero s' => Bool.eqb s s'
  | S754_infinity s, S754_infinity s' => Bool.eqb s s'
  | S754_nan, S754_nan => true
  | S754_finite s m e, S754_finite s' m' e' =>
      Bool.eqb s s' && (m =? m')%positive && (e =? e')
  | _, _ => false
  end.

(** The largest [p] with [10 ^ p <= v], for [v] in the range of the
    positive floats, searched upwards from [p]. *)
Fixpoint exponent10 (fuel : nat) (p : Z) (v : Q) : Z :=
  match fuel with
  | O => p
  | S fuel =>
      if Qle_bool (pow10 (p + 1)) v then exponent10 fuel (p + 1) v else p
  end.

(** Among the decimals of [k] significant digits next to [v], one that
    reads back as the float [x] (the nearer to [v] when both do). *)
Definition digits_candidate (x : spec_float) (v : Q) (p k : Z) : option Q :=
  let scale := pow10 (p - k + 1) in
  let lo := (inject_Z (Qfloor (v / scale)) * scale)%Q in
  let hi := (lo + scale)%Q in
  let ok_lo := SF_same (Q2SF lo) x in
  let ok_hi := SF_same (Q2SF hi) x in
  if ok_lo && ok_hi then Some (if Qle_bool (v - lo) (hi - v) then lo else hi)
  else if ok_lo then Some lo
  else if ok_hi then Some hi
  else None.

Fixpoint shortest (x : spec_float) (v : Q) (p : Z) (n : nat) (k : Z) : Q :=
  match n with
  | O => v
  | S n =>
      match digits_candidate x v p k with
      | Some d => d
      | None => shortest x v p n (k + 1)
      end
  end.

(** The number that [str(x)] (the same as [repr(x)]) writes for a finite
    float: the decimal of fewest significant digits, up to 17, that reads
    back as [x]. *)
Definition repr_value (x : spec_float) : option Q :=
  match x with
  | S754_zero _ => Some 0%Q
  | S754_finite s m e =>
      let a := SFabs x in
      match SF2Q a with
      | Some v =>
          let d := shortest a v (exponent10 640 (-324) v) 17 1 in
          Some (if s then Qopp d else d)
      | None => None
      end
  | _ => None
  end.

(** The numbers [to_deg] returns are ints and floats. *)
Inductive number : Type :=
| PyInt (z : Z)
| PyFloat (x : spec_float).

(** [Fraction(str(number))] as the pair [(numerator, denominator)]: the
    decimal string is read exactly and the fraction is in lowest terms.
    ['inf'] and ['nan'] are no literals of [Fraction]. *)
Definition fraction_of_str (n : number) : result (Z * Z) :=
  match n with
  | PyInt z => Ok (z, 1)
  | PyFloat x =>
      match repr_value x with
      | Some d => Ok (Qnum (Qred d), Zpos (Qden (Qred d)))
      | None => Raise (ValueError "Invalid literal for Fraction")
      end
  end.

End PyFloat.

(** ** The metadata of a JPEG, as [piexif] hands it over

    [piexif.load] returns a dictionary of sections (["0th"], ["Exif"],
    ["GPS"], ...), each a dictionary from tag numbers to values.  The tag
    numbers are those of the EXIF standard, under piexif's names. *)

Module piexif.

Inductive value : Type :=
| Bytes (b : string)                       (* b'2020:01:01 10:00:00' *)
| Str (s : string)                         (* 'N' *)
| Ints (l : list Z)                        (* (2, 0, 0, 0) *)
| Rationals (l : list (Z * Z)).            (* ((33, 1), (27, 1), (108, 5)) *)

Abbreviation ifd := (gmap Z value).
Abbreviation exif_dict := (gmap string (gmap Z value)).

Module ExifIFD.
Definition DateTimeOriginal : Z := 36867.
Definition DateTimeDigitized : Z := 36868.
Definition OffsetTimeOriginal : Z := 36881.
Definition OffsetTimeDigitized : Z := 36882.
End ExifIFD.

Module GPSIFD.
Definition GPSVersionID : Z := 0.
Definition GPSLatitudeRef : Z := 1.
Definition GPSLatitude : Z := 2.
Definition GPSLongitudeRef : Z := 3.
Definition GPSLongitude : Z := 4.
End GPSIFD.

End piexif.

(** ** Python's [str.find] and [str.replace] *)

Module PyStr.

(** [s.find(sub)]: the lowest index of [sub] in [s], or -1. *)
Definition find (s sub : string) : Z :=
  match String.index 0 sub s with
  | Some n => Z.of_nat n
  | None => -1
  end.

(** [s.replace(old, new)] for a non-empty [old]: every occurrence, from
    left to right, without overlap.  [skip] counts the characters of an
    occurrence still to drop. *)
Fixpoint replace_from (old new : string) (skip : nat) (s : string) : string :=
  match s with
  | EmptyString => EmptyString
  | String c s' =>
      match skip with
      | S k => replace_from old new k s'
      | O =>
          if String.prefix old s
          then String.append new (replace_from old new (String.length old - 1) s')
          else String c (replace_from old new 0 s')
      end
  end.

Definition replace (s old new : string) : string := replace_from old new 0 s.

Fixpoint is_ascii (s : string) : bool :=
  match s with
  | EmptyString => true
  | String c s' => (Ascii.nat_of_ascii c <? 128)%nat && is_ascii s'
  end.

End PyStr.

(** ** JpegFile *)

Module JpegFile.
Import piexif PyFloat.

(** The object: [path] and the two memo fields [_ts] and [_exif]. *)
Record t : Type := Build {
  path : string;
  _ts : option Z;
  _exif : option exif_dict
}.

(** The files, by path: for each JPEG the metadata [piexif.load] decodes
    from it and [piexif.insert] writes into it. *)
Abbreviation files := (gmap string (gmap string (gmap Z value))).

(** [JpegFile(path)]: nothing is read yet. *)
Definition __init__ (path : string) : t := Build path None None.

Definition piexif_load (fs : files) (p : string) : result exif_dict :=
  match fs !! p with
  | Some e => Ok e
  | None => Raise (FileNotFoundError p)
  end.

(** The property [exif]: loaded on first use, then kept in [_exif]. *)
Definition exif (fs : files) (self : t) : result (t * exif_dict) :=
  match _exif self with
  | Some e => Ok (self, e)
  | None =>
      e ← piexif_load fs (path self);
      Ok (Build (path self) (_ts self) (Some e), e)
  end.

(** The property [has_geo]: a missing ["GPS"] section is the [KeyError]
    that the method turns into [False]. *)
Definition has_geo (fs : files) (self : t) : result (t * bool) :=
  '(self, e) ← exif fs self;
  match e !! "GPS" with
  | Some gps =>
      Ok (self, bool_decide (is_Some (gps !! GPSIFD.GPSLatitude))
                || bool_decide (is_Some (gps !! GPSIFD.GPSLongitude)))
  | None => Ok (self, false)
  end.

(** [to_deg(value, loc)] of [write_lat_lng]. *)
Definition to_deg (value : spec_float) (loc : string * string)
  : result (Z * Z * spec_float * string) :=
  let loc_value :=
    if float_lt value (S754_zero false) then loc.1
    else if float_lt (S754_zero false) value then loc.2
    else "" in
  let abs_value := SFabs value in
  deg ← py_int abs_value;
  frac ← float_sub_int abs_value deg;
  t1 ← float_mul_int frac 60;
  min ← py_int t1;
  rest ← float_sub_int t1 min;
  sec60 ← float_mul_int rest 60;
  let sec := py_round sec60 5 in
  Ok (deg, min, sec, loc_value).

(** [change_to_rational(number)]: [Fraction(str(number))] as
    [(numerator, denominator)]. *)
Definition change_to_rational (n : number) : result (Z * Z) :=
  fraction_of_str n.

(** The three rationals of one coordinate. *)
Definition exiv (d : Z * Z * spec_float * string) : result (list (Z * Z)) :=
  r0 ← change_to_rational (PyInt d.1.1.1);
  r1 ← change_to_rational (PyInt d.1.1.2);
  r2 ← change_to_rational (PyFloat d.1.2);
  Ok [r0; r1; r2].

(** The ["GPS"] section [write_lat_lng] builds. *)
Definition gps_block (lat_ref : string) (exiv_lat : list (Z * Z))
    (lng_ref : string) (exiv_lng : list (Z * Z)) : ifd :=
  <[GPSIFD.GPSVersionID := Ints [2; 0; 0; 0]]>
  (<[GPSIFD.GPSLatitudeRef := Str lat_ref]>
  (<[GPSIFD.GPSLatitude := Rationals exiv_lat]>
  (<[GPSIFD.GPSLongitudeRef := Str lng_ref]>
  (<[GPSIFD.GPSLongitude := Rationals exiv_lng]> ∅)))).

(** [write_lat_lng(lat, lng)]: the section replaces [self.exif['GPS']]
    and [piexif.insert(piexif.dump(self.exif), self.path)] writes the
    dictionary into the file.  There is no test of [has_geo] here. *)
Definition write_lat_lng (fs : files) (self : t) (lat lng : spec_float)
  : result (t * files) :=
  lat_deg ← to_deg lat ("S", "N");
  lng_deg ← to_deg lng ("W", "E");
  exiv_lat ← exiv lat_deg;
  exiv_lng ← exiv lng_deg;
  '(self, e) ← exif fs self;
  let e' := <["GPS" := gps_block lat_deg.2 exiv_lat lng_deg.2 exiv_lng]> e in
  Ok (Build (path self) (_ts self) (Some e'), <[path self := e']> fs).

(** Vocabulary: the metadata holds a geotag as [has_geo] understands it,
    a ["GPS"] section with a latitude or a longitude tag. *)
Definition geotagged (e : exif_dict) : Prop :=
  ∃ gps, e !! "GPS" = Some gps ∧
         (is_Some (gps !! GPSIFD.GPSLatitude)
          ∨ is_Some (gps !! GPSIFD.GPSLongitude)).

(** *** [_get_timestmap] *)

(** The names the class [datetime.datetime] has.  The script imports
    [datetime] and [timedelta] from the module [datetime] (lines 11-14),
    so in [datetime.timedelta(days=1)] (line 127) the name [datetime] is
    this class. *)
Definition datetime_class_attributes : list string :=
  [ "min"; "max"; "resolution"; "today"; "now"; "utcnow"; "fromtimestamp";
    "utcfromtimestamp"; "fromordinal"; "fromisoformat"; "fromisocalendar";
    "combine"; "strptime"; "strftime"; "year"; "month"; "day"; "hour";
    "minute"; "second"; "microsecond"; "tzinfo"; "fold"; "date"; "time";
    "timetz"; "replace"; "astimezone"; "utcoffset"; "dst"; "tzname";
    "timetuple"; "utctimetuple"; "toordinal"; "timestamp"; "weekday";
    "isoweekday"; "isocalendar"; "isoformat"; "ctime" ].

(** [datetime.<name>]: the lookup of an attribute of the class. *)
Definition datetime_getattr (name : string) : result unit :=
  if bool_decide (name ∈ datetime_class_attributes) then Ok ()
  else Raise (AttributeError "type object 'datetime.datetime'" name).

(** [b.decode('ascii')] on the value of a tag. *)
Definition decode_ascii (v : value) : result string :=
  match v with
  | Bytes b => if PyStr.is_ascii b then Ok b else Raise UnicodeDecodeError
  | Str _ => Raise (AttributeError "'str' object" "decode")
  | Ints _ | Rationals _ => Raise (AttributeError "'tuple' object" "decode")
  end.

(** The messages of the two failures of [_get_timestmap], under the names
    of the specification. *)
Definition MissingTimestamp : exn := ValueError "exif tags not found".
Definition TimestampMismatch (original digitized : Z) : exn :=
  ValueErrorFormat "original:{original} != digitized:{digitized}"
                   [original; digitized].

(** [datetime.strptime] and [time.mktime] belong to Python's library, and
    [mktime] depends on the time zone of the machine.  A naive [datetime]
    is represented by the count of its seconds since 0001-01-01 00:00:00,
    a [timedelta] by a number of seconds: [==] and [+] are those of [Z].
    [strptime s] is the instant [datetime.strptime(s, '%Y:%m:%d %H:%M:%S')]
    returns, or [None] where it raises [ValueError]; [mktime d] is
    [int(time.mktime(d.timetuple()))]. *)
Section Timestamp.
Context (strptime : string → option Z) (mktime : Z → Z).

Definition datetime_strptime (s : string) : result Z :=
  match strptime s with
  | Some d => Ok d
  | None => Raise (ValueError "time data does not match format")
  end.

(** One turn of the loop over the two tags: the value [t[key]] ends
    with. *)
Definition read_datetime (e : exif_dict) (dt_tag : Z) : result (option Z) :=
  match e !! "Exif" ≫= (.!! dt_tag) with
  | None => Ok None                                   (* except KeyError *)
  | Some v =>
      dt ← decode_ascii v;
      '(dt, delta) ←
        (if 0 <? PyStr.find dt " 24:"
         then
           let dt := PyStr.replace dt " 24:" " 00:" in
           _ ← datetime_getattr "timedelta";          (* datetime.timedelta *)
           Ok (dt, 86400)                             (* (days=1) *)
         else Ok (dt, 0));                            (* timedelta() *)
      dt ← datetime_strptime dt;
      Ok (Some (dt + delta))
  end.

Definition _get_timestmap (fs : files) (self : t) : result (t * Z) :=
  '(self, e) ← exif fs self;
  original ← read_datetime e ExifIFD.DateTimeOriginal;
  digitized ← read_datetime e ExifIFD.DateTimeDigitized;
  if negb (bool_decide (is_Some original) || bool_decide (is_Some digitized))
  then Raise MissingTimestamp
  else
    match original, digitized with
    | Some o, Some d =>
        if bool_decide (o ≠ d) then Raise (TimestampMismatch o d)
        else Ok (self, mktime d)
    | _, Some d => Ok (self, mktime d)
    | Some o, None => Ok (self, mktime o)
    | None, None => Raise (AttributeError "'NoneType' object" "timetuple")
    end.

(** Vocabulary of the claims: the value of a tag of the ["Exif"] section,
    when the tag is there. *)
Definition exif_field (e : exif_dict) (dt_tag : Z) : option value :=
  e !! "Exif" ≫= (.!! dt_tag).

(** The tag holds a string that [_get_timestmap] parses to the instant
    [d]: ASCII bytes without [" 24:"] past the first character, which
    [strptime] accepts. *)
Definition parses_to (e : exif_dict) (dt_tag : Z) (d : Z) : Prop :=
  ∃ s, exif_field e dt_tag = Some (Bytes s) ∧ PyStr.is_ascii s = true ∧
       PyStr.find s " 24:" ≤ 0 ∧ strptime s = Some d.

(** The property [timestamp]: computed on first use, then kept in [_ts]. *)
Definition timestamp (fs : files) (self : t) : result (t * Z) :=
  match _ts self with
  | Some ts => Ok (self, ts)
  | None =>
      '(self, ts) ← _get_timestmap fs self;
      Ok (Build (path self) (Some ts) (_exif self), ts)
  end.

End Timestamp.

End JpegFile.

(** ** The write step of [main] (lines 276-283)

    [if not args.dry_run:] the photo is skipped with a log message when
    [jpg.has_geo], and written otherwise. *)

Module Main.
Import JpegFile.

Inductive write_outcome : Type :=
| DryRun                 (* args.dry_run: nothing is written *)
| AlreadyGeotagged       (* "skipping: ... already has GPS data"; continue *)
| Written.               (* jpg.write_lat_lng(lat, lng) returned *)

Definition write (dry_run : bool) (fs : files) (jpg : JpegFile.t)
    (lat lng : spec_float) : result (JpegFile.t * files * write_outcome) :=
  if negb dry_run then
    '(jpg, geo) ← has_geo fs jpg;
    match geo with
    | true => Ok (jpg, fs, AlreadyGeotagged)
    | false =>
        '(jpg, fs) ← write_lat_lng fs jpg lat lng;
        Ok (jpg, fs, Written)
    end
  else Ok (jpg, fs, DryRun).

(** The body of the loop of [main] for one photo (lines 262-283), the log
    messages left out.  [args.offset] is an int.  The coordinates that
    [search] returns are handed to [write_lat_lng] as the floats nearest
    to them: for a sample stored by [save], the float Python computed for
    [latitudeE7 / 10000000]. *)
Section Loop.
Context (strptime : string → option Z) (mktime : Z → Z).

Definition photo (dry_run : bool) (offset : Z) (max_delta : Qc)
    (geo : GeoData.store) (fs : files) (jpg : JpegFile.t)
  : result (JpegFile.t * files * write_outcome) :=
  '(jpg, ts) ← timestamp strptime mktime fs jpg;
  '(lat, lng) ← GeoData.search geo (Qc_of_Z (ts + offset)) max_delta;
  write dry_run fs jpg (PyFloat.Q2SF (this lat)) (PyFloat.Q2SF (this lng)).

(** The same body with [args.max_delta] as [main] has it: an int or a
    [str]. *)
Definition photo_arg (dry_run : bool) (offset : Z) (max_delta : GeoData.arg)
    (geo : GeoData.store) (fs : files) (jpg : JpegFile.t)
  : result (JpegFile.t * files * write_outcome) :=
  '(jpg, ts) ← timestamp strptime mktime fs jpg;
  '(lat, lng) ← GeoData.search_arg geo (Qc_of_Z (ts + offset)) max_delta;
  write dry_run fs jpg (PyFloat.Q2SF (this lat)) (PyFloat.Q2SF (this lng)).

(** [for jpg in args.files: jpg = JpegFile(jpg); ...] (lines 261-283).
    Nothing catches an exception: the first photo that raises ends the
    run, and the photos before it stay as they were written.  (A photo
    writes as the last step of [write_lat_lng], so a turn that raises has
    written nothing.)  The log message of a dry or verbose run is left
    out, with the [datetime.fromtimestamp] that formats it.  The result is
    the files after the run, what was done with each photo that was
    processed, and the exception if one was raised. *)
Fixpoint run (dry_run : bool) (offset : Z) (max_delta : GeoData.arg)
    (geo : GeoData.store) (fs : files) (paths : list string)
  : files * list write_outcome * option exn :=
  match paths with
  | [] => (fs, [], None)
  | p :: rest =>
      match photo_arg dry_run offset max_delta geo fs (JpegFile.__init__ p) with
      | Raise e => (fs, [], Some e)
      | Ok (_, fs', out) =>
          let '(fs'', outs, e) := run dry_run offset max_delta geo fs' rest in
          (fs'', out :: outs, e)
      end
  end.

End Loop.

(** *** [main]

    The arguments after [parse_args] and [int(args.offset)]:
    [max_delta] is [None] when [--max-delta] is absent.  [--verbose] only
    changes what is logged.  [os.path.splitext] is a parameter, as for
    [GeoData.__init__].  The JPEG files and the files of [GeoData] are
    kept apart: a path names a file of one kind. *)
Record args : Type := Args {
  geo : string;
  offset : Z;
  max_delta : option string;
  dry_run : bool;
  paths : list string
}.

Section Program.
Context (splitext : string → string * string).
Context (strptime : string → option Z) (mktime : Z → Z).

Definition main (a : args) (data : gmap string GeoData.content) (fs : files)
  : gmap string GeoData.content * files * list write_outcome
    * option GeoData.init_error :=
  match GeoData.__init__ splitext data (geo a) with
  | inr e => (data, fs, [], Some e)
  | inl (d, data') =>
      let max_delta :=
        match max_delta a with
        | None => GeoData.Num (Qc_of_Z (60 * 15))
        | Some s => GeoData.Text s
        end in
      let '(fs', outs, e) :=
        run strptime mktime (dry_run a) (offset a) max_delta d fs (paths a) in
      (data', fs', outs, GeoData.Exn <$> e)
  end.

End Program.

End Main.

(** ** Photos for the examples *)

Module Photos.
Import piexif JpegFile.

(** A stand-in for [datetime.strptime] that knows three strings
    (2020-01-01 10:00:00, one second later, and 2020-01-02 00:30:00), and
    [mktime] for a machine on UTC. *)
Definition strptime (s : string) : option Z :=
  if String.eqb s "2020:01:01 10:00:00" then Some 63713469600
  else if String.eqb s "2020:01:01 10:00:01" then Some 63713469601
  else if String.eqb s "2020:01:02 00:30:00" then Some 63713521800
  else None.

Definition mktime (d : Z) : Z := d - 62135596800.

Definition exif_of (tags : ifd) (gps : ifd) : exif_dict :=
  <["Exif" := tags]> (<["GPS" := gps]> ∅).

(** Both timestamps, equal; no geotag. *)
Definition plain : exif_dict :=
  exif_of (<[ExifIFD.DateTimeOriginal := Bytes "2020:01:01 10:00:00"]>
           (<[ExifIFD.DateTimeDigitized := Bytes "2020:01:01 10:00:00"]> ∅)) ∅.

(** The original timestamp has the hour 24. *)
Definition midnight : exif_dict :=
  exif_of (<[ExifIFD.DateTimeOriginal := Bytes "2020:01:01 24:30:00"]> ∅) ∅.

(** A photo that has a latitude tag already. *)
Definition geotagged : exif_dict :=
  exif_of (<[ExifIFD.DateTimeOriginal := Bytes "2020:01:01 10:00:00"]> ∅)
          (<[GPSIFD.GPSLatitude := Rationals [(10, 1); (0, 1); (0, 1)]]> ∅).

Definition disk : files :=
  <["plain.jpg" := plain]>
  (<["midnight.jpg" := midnight]>
  (<["geotagged.jpg" := geotagged]> ∅)).

(** [JpegFile(path)]. *)
Definition open (p : string) : JpegFile.t := JpegFile.Build p None None.

(** A location history of two entries, 100 seconds before and 200 seconds
    after the capture time of [plain], read by [save]. *)
Definition history : list GeoData.location :=
  [ GeoData.Location 1577872700000 (-334560000) 1512093000;
    GeoData.Location 1577873000000 (-335500000) 1512000000 ].

Definition index : GeoData.store :=
  GeoData.compile
    (GeoData.PySet
       ({[ (GeoData.truediv 1577873000000 1000,
            GeoData.truediv (-335500000) 10000000,
            GeoData.truediv 1512000000 10000000) ]}
        ∪ ({[ (GeoData.truediv 1577872700000 1000,
               GeoData.truediv (-334560000) 10000000,
               GeoData.truediv 1512093000 10000000) ]} ∪ ∅))).

(** The photo [plain] with a time zone offset beside its timestamps and a
    geotag. *)
Definition plain_offset : exif_dict :=
  exif_of (<[ExifIFD.OffsetTimeOriginal := Bytes "+02:00"]>
           (<[ExifIFD.DateTimeOriginal := Bytes "2020:01:01 10:00:00"]>
           (<[ExifIFD.DateTimeDigitized := Bytes "2020:01:01 10:00:00"]> ∅)))
          (<[GPSIFD.GPSLatitude := Rationals [(10, 1); (0, 1); (0, 1)]]> ∅).

(** A photo whose ["GPS"] section holds an altitude (tag 6) and no
    latitude or longitude; its original timestamp is no date. *)
Definition altitude_only : exif_dict :=
  exif_of (<[ExifIFD.DateTimeOriginal := Bytes "yesterday"]>
           (<[ExifIFD.DateTimeDigitized := Bytes "2020:01:01 10:00:00"]> ∅))
          (<[6 := Rationals [(120, 1)]]> ∅).


(** A stand-in for [os.path.splitext] that knows the name of the history
    of the examples. *)
Definition splitext (p : string) : string * string :=
  if String.eqb p "history.json" then ("history", ".json") else (p, "").

(** The files of [GeoData] before the first run: the history, no cache. *)
Definition entries : list GeoData.entry :=
  [ {[ "timestampMs" := 1577872700000; "latitudeE7" := -334560000;
       "longitudeE7" := 1512093000 ]};
    {[ "timestampMs" := 1577873000000; "latitudeE7" := -335500000;
       "longitudeE7" := 1512000000 ]} ].

Definition data : gmap string GeoData.content :=
  {[ "history.json" := GeoData.History entries ]}.

End Photos.

(** * Proofs *)

(** ** Linear arithmetic on [Qc], through [Q] *)

Section QcArith.
Local Open Scope Qc_scope.

Lemma Qc_eq_Q (x y : Qc) : x = y ↔ (this x == this y)%Q.
Proof. split; [intros ->; reflexivity | apply Qc_is_canon]. Qed.

Lemma this_plus (x y : Qc) : (this (x + y) == this x + this y)%Q.
Proof. unfold Qcplus, Q2Qc; simpl. apply Qred_correct. Qed.

Lemma this_opp (x : Qc) : (this (- x) == - this x)%Q.
Proof. unfold Qcopp, Q2Qc; simpl. apply Qred_correct. Qed.


Lemma this_minus (x y : Qc) : (this (x - y) == this x - this y)%Q.
Proof. unfold Qcminus. rewrite this_plus, this_opp. reflexivity. Qed.

End QcArith.

(** Settles a closed decidable proposition by evaluation. *)
Ltac by_compute := apply (bool_decide_unpack _); vm_compute; exact I.

(** Turns the [Qc] order and equality facts of the context and the goal
    into facts on [Q] and calls [lra]. *)
Ltac qc_lra :=
  repeat match goal with
  | H : @eq Qc _ _ |- _ => apply Qc_eq_Q in H
  | H : ¬ (@eq Qc _ _) |- _ => rewrite Qc_eq_Q in H
  | H : ¬ (Qcle _ _) |- _ => apply Qcnot_le_lt in H
  | H : ¬ (Qclt _ _) |- _ => apply Qcnot_lt_le in H
  | |- @eq Qc _ _ => apply Qc_is_canon
  | |- ¬ (@eq Qc _ _) => rewrite Qc_eq_Q
  | |- ¬ (Qcle _ _) => apply Qclt_not_le
  | |- ¬ (Qclt _ _) => apply Qcle_not_lt
  end;
  unfold Qcle, Qclt in *;
  repeat match goal with
  | H : context [this (_ - _)] |- _ => rewrite this_minus in H
  | H : context [this (_ + _)] |- _ => rewrite this_plus in H
  | H : context [this (- _)] |- _ => rewrite this_opp in H
  | |- context [this (_ - _)] => rewrite this_minus
  | |- context [this (_ + _)] => rewrite this_plus
  | |- context [this (- _)] => rewrite this_opp
  end;
  change (this 0%Qc) with 0%Q in *;
  lra.

Section SearchFacts.
Import GeoData.
Local Open Scope Qc_scope.

Lemma dist_nonneg (x : sample) (ts : Qc) : 0 ≤ dist x ts.
Proof. apply Qcabs_nonneg. Qed.


Lemma dist_after (x : sample) (ts : Qc) :
  ts ≤ timestamp x → dist x ts = timestamp x - ts.
Proof. intros H. unfold dist. apply Qcabs_pos. qc_lra. Qed.

Lemma dist_zero (x : sample) (ts : Qc) : timestamp x = ts → dist x ts = 0.
Proof. intros <-. rewrite dist_after by apply Qcle_refl. qc_lra. Qed.

(** The loop body goes on to the next pair exactly when the pair does not
    bracket the query. *)
Lemma search_pair_None (a b : sample) (ts md : Qc) :
  search_pair a b ts md = None ↔ ¬ (timestamp a ≤ ts ∧ ts ≤ timestamp b).
Proof.
  unfold search_pair.
  destruct (bool_decide (timestamp a - ts ≤ 0)) eqn:Hp;
    destruct (bool_decide (0 ≤ timestamp b - ts)) eqn:Hq; simpl;
    try apply bool_decide_eq_true_1 in Hp; try apply bool_decide_eq_true_1 in Hq;
    try apply bool_decide_eq_false_1 in Hp; try apply bool_decide_eq_false_1 in Hq.
  - split; [|intros []; split; qc_lra].
    repeat case_match; discriminate.
  - split; [intros _ [_ ?]; qc_lra | done].
  - split; [intros _ [? _]; qc_lra | done].
  - split; [intros _ [? _]; qc_lra | done].
Qed.

(** On a bracketing pair and a non-negative [max_delta] the tolerance test
    of the loop body is false (its first operand, [delta_prev > max_delta],
    compares a number that is at most 0), and the body returns the endpoint
    that is strictly closer, or the later one. *)
Lemma search_pair_brackets (a b : sample) (ts md : Qc) :
  timestamp a ≤ ts → ts ≤ timestamp b → 0 ≤ md →
  search_pair a b ts md =
    Some (Ok (coordinate (if bool_decide (dist a ts < dist b ts) then a else b))).
Proof.
  intros Ha Hb Hmd. unfold search_pair, dist, coordinate.
  rewrite (bool_decide_eq_true_2 (timestamp a - ts ≤ 0)) by qc_lra.
  rewrite (bool_decide_eq_true_2 (0 ≤ timestamp b - ts)) by qc_lra.
  rewrite (bool_decide_eq_false_2 (md < timestamp a - ts)) by qc_lra.
  simpl. by case_bool_decide.
Qed.

(** The loop body raises the tolerance error only for a negative
    [max_delta]. *)
Lemma search_pair_tolerance (a b : sample) (ts md : Qc) :
  search_pair a b ts md = Some (Raise ToleranceExceeded) → md < 0.
Proof.
  unfold search_pair. intros H.
  destruct (bool_decide (timestamp a - ts ≤ 0)) eqn:Hp; [|done].
  destruct (bool_decide (0 ≤ timestamp b - ts)) eqn:Hq; [|done].
  simpl in H.
  destruct (bool_decide (md < timestamp a - ts)) eqn:Hm.
  - apply bool_decide_eq_true_1 in Hp, Hm. qc_lra.
  - simpl in H. by case_bool_decide.
Qed.

Lemma ts_sorted_lookup (d : list sample) (i j : nat) (a b : sample) :
  ts_sorted d → (i ≤ j)%nat → d !! i = Some a → d !! j = Some b →
  timestamp a ≤ timestamp b.
Proof.
  intros Hs. revert i j. induction Hs as [|x l Hs IH Hx]; intros i j Hij Hi Hj.
  - done.
  - destruct i as [|i], j as [|j]; simpl in *; simplify_eq.
    + apply Qcle_refl.
    + rewrite Forall_forall in Hx. apply Hx. by eapply list_elem_of_lookup_2.
    + lia.
    + eapply IH; [|done..]. lia.
Qed.

(** What the loop does over the indices [k, k+1, ..., k+n-1]: either no
    pair there brackets the query and it falls through to
    [raise ValueError(ts)], or it stops at the first pair that does, with
    the outcome of the loop body there. *)
Lemma search_loop_spec (d : list sample) (ts md : Qc) (n k : nat) :
  (k + n < length d)%nat →
  (search_loop d ts md (seq k n) = Raise (NoBracketingInterval ts) ∧
   ∀ j, (k ≤ j < k + n)%nat → ¬ brackets d ts j)
  ∨ (∃ j a b r, (k ≤ j < k + n)%nat ∧
       d !! j = Some a ∧ d !! S j = Some b ∧
       timestamp a ≤ ts ∧ ts ≤ timestamp b ∧
       (∀ j', (k ≤ j' < j)%nat → ¬ brackets d ts j') ∧
       search_pair a b ts md = Some r ∧
       search_loop d ts md (seq k n) = r).
Proof.
  revert k. induction n as [|n IH]; intros k Hlen.
  - left. split; [done | intros j ?; lia].
  - simpl.
    destruct (lookup_lt_is_Some_2 d k) as [a Ha]; [lia|].
    destruct (lookup_lt_is_Some_2 d (S k)) as [b Hb]; [lia|].
    unfold getitem. rewrite Ha. simpl.
    replace (k + 1)%nat with (S k) by lia. rewrite Hb. simpl.
    destruct (search_pair a b ts md) as [r|] eqn:Hp.
    + right. exists k, a, b, r.
      assert (timestamp a ≤ ts ∧ ts ≤ timestamp b) as [??].
      { destruct (decide (timestamp a ≤ ts ∧ ts ≤ timestamp b)) as [|Hn]; [done|].
        apply (proj2 (search_pair_None a b ts md)) in Hn. congruence. }
      repeat split; try done; try lia.
    + apply search_pair_None in Hp.
      destruct (IH (S k)) as [[Hr Hno]|(j & a' & b' & r & Hj & ? & ? & ? & ? & Hfirst & ? & ?)];
        [lia| |].
      * left. split; [done|]. intros j Hj.
        destruct (decide (j = k)) as [->|].
        -- intros (a' & b' & ? & ? & ? & ?). simplify_eq. by apply Hp.
        -- apply Hno. lia.
      * right. exists j, a', b', r. repeat split; try done; try lia.
        intros j' Hj'. destruct (decide (j' = k)) as [->|].
        -- intros (a'' & b'' & ? & ? & ? & ?). simplify_eq. by apply Hp.
        -- apply Hfirst. lia.
Qed.

(** [search] on a compiled list of two or more samples. *)
Lemma search_list_spec (d : list sample) (ts md : Qc) :
  (2 ≤ length d)%nat →
  (search (PyList d) ts md = Raise (NoBracketingInterval ts) ∧
   ∀ j, ¬ brackets d ts j)
  ∨ (∃ j a b r,
       d !! j = Some a ∧ d !! S j = Some b ∧
       timestamp a ≤ ts ∧ ts ≤ timestamp b ∧
       (∀ j', (j' < j)%nat → ¬ brackets d ts j') ∧
       search_pair a b ts md = Some r ∧
       search (PyList d) ts md = r).
Proof.
  intros Hlen. unfold search. simpl.
  rewrite bool_decide_eq_false_2 by lia.
  destruct (search_loop_spec d ts md (length d - 1) 0) as
    [[Hr Hno]|(j & a & b & r & Hj & ? & ? & ? & ? & Hfirst & ? & ?)]; [lia| |].
  - left. split; [done|]. intros j Hb.
    destruct (decide (j < length d - 1)%nat) as [Hj|Hj].
    + apply (Hno j); [lia | done].
    + destruct Hb as (a & b & _ & Hb & _). apply lookup_lt_Some in Hb. lia.
  - right. exists j, a, b, r. repeat split; try done.
    intros j' ?. apply Hfirst. lia.
Qed.

(** Two bracketing pairs of a sorted list: the later endpoint of the first
    one is at the query time. *)
Lemma brackets_earlier (d : list sample) (ts : Qc) (i j : nat) (a a' b' : sample) :
  ts_sorted d → (j < i)%nat →
  d !! i = Some a → timestamp a ≤ ts →
  d !! j = Some a' → d !! S j = Some b' → ts ≤ timestamp b' →
  timestamp b' = ts ∧ timestamp a = ts.
Proof.
  intros Hs Hji Ha Hats Ha' Hb' Hb'ts.
  assert (timestamp b' ≤ timestamp a) by (eapply (ts_sorted_lookup d (S j) i); done || lia).
  split; qc_lra.
Qed.

(** On a sorted list with a bracketing pair at index [i] and a
    non-negative [max_delta], [search] stops at a bracketing pair at some
    index [j <= i] and returns the endpoint of that pair that is strictly
    closer to the query, or the later one; when [j < i] the later endpoint
    of the pair at [j] and the earlier endpoint of the pair at [i] are both
    at the query time. *)
Lemma search_selects (d : list sample) (ts md : Qc) (i : nat) (a b : sample) :
  ts_sorted d →
  d !! i = Some a → d !! S i = Some b →
  timestamp a ≤ ts → ts ≤ timestamp b → 0 ≤ md →
  ∃ (j : nat) (a' b' : sample),
    (j ≤ i)%nat ∧ d !! j = Some a' ∧ d !! S j = Some b' ∧
    timestamp a' ≤ ts ∧ ts ≤ timestamp b' ∧
    (j < i → timestamp b' = ts ∧ timestamp a = ts)%nat ∧
    search (PyList d) ts md
      = Ok (coordinate (if bool_decide (dist a' ts < dist b' ts) then a' else b')).
Proof.
  intros Hs Ha Hb Hat Htb Hmd.
  assert (2 ≤ length d)%nat as Hlen by (apply lookup_lt_Some in Hb; lia).
  destruct (search_list_spec d ts md Hlen) as
    [[_ Hno]|(j & a' & b' & r & Ha' & Hb' & Hat' & Htb' & Hfirst & Hpair & Hr)].
  { destruct (Hno i). exists a, b. done. }
  rewrite search_pair_brackets in Hpair by done.
  injection Hpair as Hpair. rewrite <- Hpair in Hr. clear Hpair r.
  assert (j ≤ i)%nat as Hji.
  { destruct (decide (j ≤ i)%nat); [done|]. destruct (Hfirst i); [lia|].
    exists a, b. done. }
  exists j, a', b'. split_and!; try done.
  intros Hlt. by eapply (brackets_earlier d ts i j a a' b').
Qed.



End SearchFacts.

(** ** The claims about [search] *)

Section SearchClaims.
Import GeoData.
Local Open Scope Qc_scope.





(** C2.  The tolerance test of the loop, [delta_prev > max_delta and
    delta_post > max_delta], compares the signed differences; on a
    bracketing pair [delta_prev] is at most 0, so for [max_delta >= 0] the
    test is never true.  In the scenario of the specification (both
    endpoints 50 seconds away, [max_delta = 10]) [search] returns the
    coordinate of the sample at 200 instead of raising
    [ValueError('Max delta')], and for no store, query and non-negative
    [max_delta] does [search] raise that error. *)
Theorem search_tolerance_not_enforced :
  search (PyList scenario_zero) (Qc_of_Z 150) (Qc_of_Z 10)
    = Ok (Qc_of_Z 0, Qc_of_Z 0)
  ∧ (∀ (st : store) (ts max_delta : Qc),
       0 ≤ max_delta → search st ts max_delta ≠ Raise ToleranceExceeded).
Proof.
  split; [reflexivity|].
  intros st ts md Hmd. unfold search. case_bool_decide; [done|].
  destruct st as [s|d]; [done|].
  assert (2 ≤ length d)%nat as Hlen by (simpl in *; lia).
  destruct (search_loop_spec d ts md (length d - 1) 0) as
    [[Hr _]|(j & a & b & r & _ & _ & _ & _ & _ & _ & Hpair & Hr)]; [lia| |].
  - by rewrite Hr.
  - rewrite Hr. intros ->. apply search_pair_tolerance in Hpair. qc_lra.
Qed.

(** The general part of C2's theorem at the scenario. *)
Lemma search_tolerance_not_enforced_scenario :
  search (PyList scenario_zero) (Qc_of_Z 150) (Qc_of_Z 10)
    = Ok (Qc_of_Z 0, Qc_of_Z 0)
  ∧ search (PyList scenario_zero) (Qc_of_Z 150) (Qc_of_Z 10)
    ≠ Raise ToleranceExceeded.
Proof.
  split.
  - exact (proj1 search_tolerance_not_enforced).
  - apply (proj2 search_tolerance_not_enforced). by_compute.
Defined.




End SearchClaims.

(** ** The order of [sorted] and the claims about [save] and [compile] *)

Section CompileFacts.
Import GeoData.
Local Open Scope Qc_scope.

Global Instance sample_le_total : Total sample_le.
Proof.
  intros [[t1 a1] o1] [[t2 a2] o2].
  unfold sample_le, timestamp, latitude, longitude; simpl.
  destruct (Qc_dec t1 t2) as [[?|?]|?]; [by left; left|by right; left|].
  destruct (Qc_dec a1 a2) as [[?|?]|?]; [left; right; auto|right; right; auto|].
  destruct (Qclt_le_dec o1 o2) as [?%Qclt_le_weak|?];
    [left|right]; right; auto.
Qed.

Global Instance sample_le_trans : Transitive sample_le.
Proof.
  intros [[t1 a1] o1] [[t2 a2] o2] [[t3 a3] o3].
  unfold sample_le, timestamp, latitude, longitude; simpl.
  intros [?|[? [?|[? ?]]]] [?|[? [?|[? ?]]]]; subst;
    try (left; (done || qc_lra));
    right; (split; [done|]);
    try (left; (done || qc_lra));
    right; (split; [done|qc_lra]).
Qed.

Global Instance sample_le_antisym : AntiSymm (=) sample_le.
Proof.
  intros [[t1 a1] o1] [[t2 a2] o2].
  unfold sample_le, timestamp, latitude, longitude; simpl.
  intros [?|[? [?|[? ?]]]] [?|[? [?|[? ?]]]]; subst;
    try (exfalso; qc_lra).
  f_equal. qc_lra.
Qed.

Lemma sample_le_ts_le (x y : sample) : sample_le x y → ts_le x y.
Proof.
  unfold sample_le, ts_le. intros [?|[-> _]]; [by apply Qclt_le_weak | apply Qcle_refl].
Qed.

(** [sorted] of a set: in Python's tuple order, hence by timestamp,
    without repetition, with the elements of the set. *)
Lemma py_sorted_spec (s : gset sample) :
  StronglySorted sample_le (py_sorted s) ∧ NoDup (py_sorted s) ∧
  ∀ x, x ∈ py_sorted s ↔ x ∈ s.
Proof.
  unfold py_sorted. split_and!.
  - apply (StronglySorted_merge_sort sample_le).
  - rewrite merge_sort_Permutation. apply NoDup_elements.
  - intros x. rewrite merge_sort_Permutation. apply elem_of_elements.
Qed.

Lemma py_sorted_ts_sorted (s : gset sample) : ts_sorted (py_sorted s).
Proof.
  destruct (py_sorted_spec s) as [Hs _]. unfold ts_sorted.
  induction Hs as [|x l _ IH Hx]; constructor; [done|].
  eapply Forall_impl; [exact Hx|]. intros y. apply sample_le_ts_le.
Qed.

(** Any sorted arrangement of the elements of the set is the list
    [sorted] returns: the result does not depend on the sorting algorithm
    or on the iteration order of the set. *)
Lemma py_sorted_unique (s : gset sample) (l : list sample) :
  Sorted sample_le l → l ≡ₚ elements s → l = py_sorted s.
Proof.
  intros Hl Hp. apply (Sorted_unique sample_le); [done| |].
  - apply (Sorted_merge_sort sample_le).
  - unfold py_sorted. by rewrite merge_sort_Permutation.
Qed.

(** A reachable store is a set, or a list that [sorted] produced. *)
Lemma reachable_inv (st : store) :
  reachable st →
  match st with
  | PySet _ => True
  | PyList l => ∃ s, l = py_sorted s
  end.
Proof.
  induction 1 as [|st loc st' _ IH Hsave|st _ IH]; [done| |].
  - destruct st; simpl in Hsave; by simplify_eq.
  - destruct st; simpl; eauto.
Qed.





(** C10.  [compile] is idempotent: after one call any number of further
    calls leave [self._d] as it is, and [dump] (which compiles and
    pickles) called again on the store a first [dump] left returns the
    same store and the same bytes.  For every reachable store the list
    after [compile] is in Python's tuple order, hence in non-decreasing
    order of timestamp, and holds no tuple twice; compiled from a set it
    holds exactly the elements of the set. *)
Theorem compile_idempotent :
  (∀ (st : store) (n : nat), Nat.iter n compile (compile st) = compile st)
  ∧ (∀ (bytes : Type) (pickle_dumps : store → bytes) (st : store),
       dump pickle_dumps (dump pickle_dumps st).1 = dump pickle_dumps st)
  ∧ (∀ st : store, reachable st →
       ∃ l : list sample,
         compile st = PyList l ∧
         StronglySorted sample_le l ∧ ts_sorted l ∧ NoDup l ∧
         (∀ s, st = PySet s → ∀ x, x ∈ l ↔ x ∈ s)).
Proof.
  assert (∀ st, compile (compile st) = compile st) as Hidem by (by intros []).
  split_and!.
  - intros st n. induction n as [|n IH]; [done|].
    simpl. rewrite IH. apply Hidem.
  - intros bytes pickle_dumps st. unfold dump; simpl. by rewrite Hidem.
  - intros st Hst. apply reachable_inv in Hst.
    destruct st as [s|l]; simpl.
    + exists (py_sorted s). destruct (py_sorted_spec s) as (? & ? & ?).
      split_and!; try done; [apply py_sorted_ts_sorted|].
      intros s' [= <-]. done.
    + destruct Hst as [s ->]. exists (py_sorted s).
      destruct (py_sorted_spec s) as (? & ? & ?).
      split_and!; try done; apply py_sorted_ts_sorted.
Qed.

(** C10 at a store built by two calls of [save]. *)
Lemma compile_idempotent_two_saves :
  ∃ l : list sample,
    compile (PySet ({[ (truediv 200000 1000, truediv 110000000 10000000, truediv 210000000 10000000) ]}
                    ∪ ({[ (truediv 100000 1000, truediv 100000000 10000000, truediv 200000000 10000000) ]} ∪ ∅)))
      = PyList l ∧
    StronglySorted sample_le l ∧ ts_sorted l ∧ NoDup l ∧
    (∀ s, PySet ({[ (truediv 200000 1000, truediv 110000000 10000000, truediv 210000000 10000000) ]}
                    ∪ ({[ (truediv 100000 1000, truediv 100000000 10000000, truediv 200000000 10000000) ]} ∪ ∅))
          = PySet s → ∀ x, x ∈ l ↔ x ∈ s).
Proof.
  apply (proj2 (proj2 compile_idempotent)).
  apply (reachable_save (PySet ({[ (truediv 100000 1000, truediv 100000000 10000000, truediv 200000000 10000000) ]} ∪ ∅))
           (Location 200000 110000000 210000000)); [|reflexivity].
  apply (reachable_save (PySet ∅) (Location 100000 100000000 200000000)); [|reflexivity].
  apply reachable_init.
Defined.

(** A [GeoData] built from a history (no cache file) holds a compiled
    list: [search] finds its samples in non-decreasing order of
    timestamp. *)
Lemma save_all_reachable (st st' : store) (locations : list location) :
  reachable st → save_all st locations = Ok st' → reachable st'.
Proof.
  revert st. induction locations as [|loc rest IH]; intros st Hst; simpl.
  - by intros [= <-].
  - destruct (save st loc) as [st1|] eqn:Hsave; simpl; [|done].
    apply IH. by eapply reachable_save.
Qed.

Lemma init_compiled {bytes : Type} (pickle_dumps : store → bytes)
    (locations : list location) (st : store) (out : option bytes) :
  init pickle_dumps None locations = Ok (st, out) →
  reachable st ∧ ∃ d, st = PyList d ∧ ts_sorted d.
Proof.
  unfold init. destruct (save_all (PySet ∅) locations) as [st0|] eqn:Hall;
    simpl; [|done].
  intros [= <- _].
  assert (reachable st0) as Hst0
    by (eapply save_all_reachable; [apply reachable_init | done]).
  split; [by apply reachable_compile|].
  pose proof (reachable_inv _ Hst0) as Hinv.
  destruct st0 as [s|l]; simpl.
  - exists (py_sorted s). split; [done | apply py_sorted_ts_sorted].
  - destruct Hinv as [s ->]. exists (py_sorted s).
    split; [done | apply py_sorted_ts_sorted].
Qed.

End CompileFacts.

(** ** The claims about [JpegFile._get_timestmap] *)

Section TimestampClaims.
Import piexif JpegFile.
Context (strptime : string → option Z) (mktime : Z → Z).

Lemma read_datetime_absent (e : exif_dict) (dt_tag : Z) :
  exif_field e dt_tag = None → read_datetime strptime e dt_tag = Ok None.
Proof. unfold read_datetime, exif_field. by intros ->. Qed.

Lemma read_datetime_parses (e : exif_dict) (dt_tag d : Z) :
  parses_to strptime e dt_tag d → read_datetime strptime e dt_tag = Ok (Some d).
Proof.
  intros (s & Hf & Ha & H24 & Hp). unfold read_datetime, exif_field in *.
  rewrite Hf. simpl. rewrite Ha. simpl.
  destruct (0 <? PyStr.find s " 24:") eqn:Hlt; [apply Z.ltb_lt in Hlt; lia|].
  simpl. unfold datetime_strptime. rewrite Hp. simpl. by rewrite Z.add_0_r.
Qed.

(** A present tag never leaves [None] in [t]. *)
Lemma read_datetime_present (e : exif_dict) (dt_tag : Z) (v : value) :
  exif_field e dt_tag = Some v → read_datetime strptime e dt_tag ≠ Ok None.
Proof.
  unfold read_datetime, exif_field. intros ->.
  destruct (decode_ascii v) as [dt|]; simpl; [|done].
  destruct (0 <? PyStr.find dt " 24:"); simpl; [done|].
  destruct (datetime_strptime strptime dt); simpl; done.
Qed.

(** No turn of the loop raises the error of the missing tags. *)
Lemma read_datetime_not_missing (e : exif_dict) (dt_tag : Z) :
  read_datetime strptime e dt_tag ≠ Raise MissingTimestamp.
Proof.
  unfold read_datetime. destruct (e !! "Exif" ≫= (.!! dt_tag)) as [v|]; [|done].
  destruct v as [b| | |]; simpl; try done.
  destruct (PyStr.is_ascii b); simpl; [|done].
  destruct (0 <? PyStr.find b " 24:"); simpl; [done|].
  unfold datetime_strptime. destruct (strptime b); simpl; done.
Qed.

(** A string with [" 24:"] past its first character stops the loop at
    [datetime.timedelta]. *)
Lemma read_datetime_hour_24 (e : exif_dict) (dt_tag : Z) (s : string) :
  exif_field e dt_tag = Some (Bytes s) → PyStr.is_ascii s = true →
  0 < PyStr.find s " 24:" →
  read_datetime strptime e dt_tag
    = Raise (AttributeError "type object 'datetime.datetime'" "timedelta").
Proof.
  intros Hf Ha H24. unfold read_datetime, exif_field in *.
  rewrite Hf. simpl. rewrite Ha. simpl.
  apply Z.ltb_lt in H24. rewrite H24. reflexivity.
Qed.

(** C5.  For a photo whose metadata can be read: [_get_timestmap] raises
    [ValueError('exif tags not found')] exactly when neither
    [DateTimeOriginal] nor [DateTimeDigitized] is present; it raises the
    mismatch error when both are present and parse to different instants;
    otherwise (the present tags parse, and to the same instant when both
    are present) it returns [mktime] of the digitized instant when that
    tag is present, else of the original one. *)
Theorem get_timestamp_cases (fs : files) (self self' : JpegFile.t) (e : exif_dict) :
  exif fs self = Ok (self', e) →
  (_get_timestmap strptime mktime fs self = Raise MissingTimestamp
     ↔ exif_field e ExifIFD.DateTimeOriginal = None
       ∧ exif_field e ExifIFD.DateTimeDigitized = None)
  ∧ (∀ o d, parses_to strptime e ExifIFD.DateTimeOriginal o →
            parses_to strptime e ExifIFD.DateTimeDigitized d → o ≠ d →
       _get_timestmap strptime mktime fs self = Raise (TimestampMismatch o d))
  ∧ (∀ d, parses_to strptime e ExifIFD.DateTimeDigitized d →
          (exif_field e ExifIFD.DateTimeOriginal = None
           ∨ parses_to strptime e ExifIFD.DateTimeOriginal d) →
       _get_timestmap strptime mktime fs self = Ok (self', mktime d))
  ∧ (∀ o, parses_to strptime e ExifIFD.DateTimeOriginal o →
          exif_field e ExifIFD.DateTimeDigitized = None →
       _get_timestmap strptime mktime fs self = Ok (self', mktime o)).
Proof.
  intros Hexif. unfold _get_timestmap. rewrite Hexif. simpl.
  split_and!.
  - split.
    + intros Hraise.
      destruct (exif_field e ExifIFD.DateTimeOriginal) as [vo|] eqn:Ho;
        destruct (exif_field e ExifIFD.DateTimeDigitized) as [vd|] eqn:Hd;
        [exfalso..|done].
      all: pose proof (read_datetime_not_missing e ExifIFD.DateTimeOriginal) as Hno.
      all: pose proof (read_datetime_not_missing e ExifIFD.DateTimeDigitized) as Hnd.
      all: try pose proof (read_datetime_present e _ _ Ho) as Hpo.
      all: try pose proof (read_datetime_present e _ _ Hd) as Hpd.
      all: destruct (read_datetime strptime e ExifIFD.DateTimeOriginal) as [[o|]|];
        simpl in Hraise; try done.
      all: destruct (read_datetime strptime e ExifIFD.DateTimeDigitized) as [[d|]|];
        simpl in Hraise; try done.
      all: try (by case_bool_decide).
      all: try (by destruct Hpo).
      all: try (by destruct Hpd).
      all: injection Hraise as ->; by (destruct Hno || destruct Hnd).
    + intros [Ho Hd]. by rewrite !read_datetime_absent.
  - intros o d Ho Hd Hne.
    rewrite (read_datetime_parses _ _ _ Ho), (read_datetime_parses _ _ _ Hd).
    simpl. by rewrite bool_decide_eq_true_2.
  - intros d Hd [Ho|Ho].
    + by rewrite (read_datetime_absent _ _ Ho), (read_datetime_parses _ _ _ Hd).
    + rewrite (read_datetime_parses _ _ _ Ho), (read_datetime_parses _ _ _ Hd).
      simpl. rewrite bool_decide_eq_false_2; [done|]. by intros [].
  - intros o Ho Hd.
    by rewrite (read_datetime_parses _ _ _ Ho), (read_datetime_absent _ _ Hd).
Qed.

(** C6.  A tag whose string has the hour 24 ("YYYY:MM:DD 24:MM:SS", so
    [" 24:"] is found at index 10) makes the turn of the loop that reads
    it raise [AttributeError]: after the hour is replaced the code
    evaluates [datetime.timedelta], and the class [datetime.datetime] has
    no such attribute.  When the tag is [DateTimeOriginal] that is the
    outcome of [_get_timestmap]; no epoch value is returned. *)
Theorem hour_24_raises_attribute_error
    (fs : files) (self self' : JpegFile.t) (e : exif_dict) (dt_tag : Z) (s : string) :
  exif fs self = Ok (self', e) →
  exif_field e dt_tag = Some (Bytes s) → PyStr.is_ascii s = true →
  0 < PyStr.find s " 24:" →
  read_datetime strptime e dt_tag
    = Raise (AttributeError "type object 'datetime.datetime'" "timedelta")
  ∧ (dt_tag = ExifIFD.DateTimeOriginal →
     _get_timestmap strptime mktime fs self
       = Raise (AttributeError "type object 'datetime.datetime'" "timedelta")).
Proof.
  intros Hexif Hf Ha H24.
  pose proof (read_datetime_hour_24 e dt_tag s Hf Ha H24) as Hr.
  split; [done|]. intros ->.
  unfold _get_timestmap. rewrite Hexif. simpl. by rewrite Hr.
Qed.

End TimestampClaims.

Section TimestampExamples.
Import piexif JpegFile.

(** C5 at a photo with two equal timestamps: the epoch value of
    2020-01-01 10:00:00 on a machine on UTC. *)
Lemma get_timestamp_cases_plain :
  _get_timestmap Photos.strptime Photos.mktime Photos.disk (Photos.open "plain.jpg")
  = Ok (JpegFile.Build "plain.jpg" None (Some Photos.plain), 1577872800).
Proof.
  apply (proj1 (proj2 (proj2
           (get_timestamp_cases Photos.strptime Photos.mktime Photos.disk
              (Photos.open "plain.jpg")
              (JpegFile.Build "plain.jpg" None (Some Photos.plain))
              Photos.plain eq_refl))) 63713469600).
  - exists "2020:01:01 10:00:00". split_and!; [reflexivity|reflexivity|by vm_compute|reflexivity].
  - right. exists "2020:01:01 10:00:00".
    split_and!; [reflexivity|reflexivity|by vm_compute|reflexivity].
Defined.

(** C6 at a photo whose original timestamp is "2020:01:01 24:30:00": the
    stand-in for [strptime] would accept the normalized string, and
    [_get_timestmap] raises [AttributeError] all the same. *)
Lemma hour_24_raises_attribute_error_midnight :
  read_datetime Photos.strptime Photos.midnight ExifIFD.DateTimeOriginal
    = Raise (AttributeError "type object 'datetime.datetime'" "timedelta")
  ∧ (ExifIFD.DateTimeOriginal = ExifIFD.DateTimeOriginal →
     _get_timestmap Photos.strptime Photos.mktime Photos.disk (Photos.open "midnight.jpg")
       = Raise (AttributeError "type object 'datetime.datetime'" "timedelta")).
Proof.
  apply (hour_24_raises_attribute_error Photos.strptime Photos.mktime Photos.disk
           (Photos.open "midnight.jpg")
           (JpegFile.Build "midnight.jpg" None (Some Photos.midnight))
           Photos.midnight ExifIFD.DateTimeOriginal "2020:01:01 24:30:00").
  - reflexivity.
  - reflexivity.
  - reflexivity.
  - by vm_compute.
Defined.

End TimestampExamples.

(** ** The size of the results of the float operations

    [SpecFloat] rounds with [binary_round_aux]: the mantissa is shifted
    right to the precision of the format, rounded to nearest even, and
    shifted once more when the rounding carried.  Counting binary digits
    bounds the exponent of the result, which is what decides between a
    finite result and an overflow. *)

Section Digits.

Lemma digits2_pos_bounds (p : positive) :
  2 ^ (Zpos (digits2_pos p) - 1) <= Zpos p < 2 ^ Zpos (digits2_pos p).
Proof.
  assert (forall d, 0 < d -> 2 ^ d = 2 * 2 ^ (d - 1)) as Hpow.
  { intros d Hd. rewrite <- Z.pow_succ_r by lia. f_equal. lia. }
  induction p as [p IH|p IH|]; simpl digits2_pos.
  - rewrite Pos2Z.inj_succ, Pos2Z.inj_xI.
    replace (Z.succ (Zpos (digits2_pos p)) - 1) with (Zpos (digits2_pos p)) by lia.
    rewrite (Hpow (Z.succ (Zpos (digits2_pos p)))) by lia.
    replace (Z.succ (Zpos (digits2_pos p)) - 1) with (Zpos (digits2_pos p)) by lia.
    rewrite (Hpow (Zpos (digits2_pos p))) in * by lia. lia.
  - rewrite Pos2Z.inj_succ. change (Zpos p~0) with (2 * Zpos p).
    replace (Z.succ (Zpos (digits2_pos p)) - 1) with (Zpos (digits2_pos p)) by lia.
    rewrite (Hpow (Z.succ (Zpos (digits2_pos p)))) by lia.
    replace (Z.succ (Zpos (digits2_pos p)) - 1) with (Zpos (digits2_pos p)) by lia.
    rewrite (Hpow (Zpos (digits2_pos p))) in * by lia. lia.
  - simpl. lia.
Qed.

Lemma Zdigits2_nonneg (m : Z) : 0 <= Zdigits2 m.
Proof. destruct m; simpl; lia. Qed.

Lemma Zdigits2_lt_pow (m : Z) : 0 <= m -> m < 2 ^ Zdigits2 m.
Proof.
  destruct m as [|p|p]; simpl; intros H; try lia.
  apply digits2_pos_bounds.
Qed.

Lemma Zdigits2_le (m k : Z) : 0 <= k -> 0 <= m < 2 ^ k -> Zdigits2 m <= k.
Proof.
  intros Hk [Hm Hlt]. destruct m as [|p|p]; simpl; try lia.
  pose proof (digits2_pos_bounds p) as [Hlo _].
  assert (2 ^ (Zpos (digits2_pos p) - 1) < 2 ^ k) as Hpow by lia.
  apply Z.pow_lt_mono_r_iff in Hpow; lia.
Qed.

Lemma Zdigits2_div_pow (m n : Z) :
  0 <= m -> 0 <= n -> 0 < m / 2 ^ n -> Zdigits2 (m / 2 ^ n) + n <= Zdigits2 m.
Proof.
  intros Hm Hn Hpos.
  pose proof (Zdigits2_lt_pow m Hm) as Hlt.
  pose proof (Zdigits2_nonneg m) as Hd.
  assert (0 < 2 ^ n) as H2n by (apply Z.pow_pos_nonneg; lia).
  assert (2 ^ n <= m) as Hge.
  { destruct (Z_lt_le_dec m (2 ^ n)) as [Hs|]; [|assumption].
    rewrite Z.div_small in Hpos by lia. lia. }
  assert (n < Zdigits2 m) as Hnd.
  { apply (Z.pow_lt_mono_r_iff 2); lia. }
  assert (Zdigits2 (m / 2 ^ n) <= Zdigits2 m - n); [|lia].
  apply Zdigits2_le; [lia|]. split; [lia|].
  apply Z.div_lt_upper_bound; [lia|].
  rewrite <- Z.pow_add_r by lia. replace (n + (Zdigits2 m - n)) with (Zdigits2 m) by lia.
  exact Hlt.
Qed.

Lemma Zdigits2_succ (m : Z) : 0 <= m -> Zdigits2 (m + 1) <= Zdigits2 m + 1.
Proof.
  intros Hm. pose proof (Zdigits2_lt_pow m Hm). pose proof (Zdigits2_nonneg m).
  apply Zdigits2_le; [lia|]. split; [lia|].
  rewrite Z.pow_add_r by lia. lia.
Qed.

Lemma Zdigits2_mono (a b : Z) : 0 <= a <= b -> Zdigits2 a <= Zdigits2 b.
Proof.
  intros [Ha Hab]. apply Zdigits2_le; [apply Zdigits2_nonneg|].
  split; [assumption|]. pose proof (Zdigits2_lt_pow b). lia.
Qed.

Lemma Zdigits2_mul (a b : Z) :
  0 <= a -> 0 <= b -> Zdigits2 (a * b) <= Zdigits2 a + Zdigits2 b.
Proof.
  intros Ha Hb.
  pose proof (Zdigits2_lt_pow a Ha). pose proof (Zdigits2_lt_pow b Hb).
  pose proof (Zdigits2_nonneg a). pose proof (Zdigits2_nonneg b).
  apply Zdigits2_le; [lia|]. split; [lia|].
  rewrite Z.pow_add_r by lia. apply Z.mul_lt_mono_nonneg; lia.
Qed.

Lemma Zdigits2_mul_pow (a n : Z) :
  0 < a -> 0 <= n -> Zdigits2 (a * 2 ^ n) = Zdigits2 a + n.
Proof.
  intros Ha Hn.
  assert (0 < 2 ^ n) as H2n by (apply Z.pow_pos_nonneg; lia).
  assert (0 < a * 2 ^ n) as Hprod by (apply Z.mul_pos_pos; lia).
  pose proof (Zdigits2_lt_pow a ltac:(lia)) as Hhi.
  pose proof (Zdigits2_nonneg a) as Hd.
  assert (Zdigits2 (a * 2 ^ n) <= Zdigits2 a + n) as Hle.
  { apply Zdigits2_le; [lia|]. split; [lia|].
    rewrite Z.pow_add_r by lia. apply Z.mul_lt_mono_pos_r; lia. }
  assert (Zdigits2 a + n <= Zdigits2 (a * 2 ^ n)); [|lia].
  pose proof (Zdigits2_lt_pow (a * 2 ^ n) ltac:(lia)) as Hhi'.
  pose proof (Zdigits2_nonneg (a * 2 ^ n)) as Hd'.
  destruct a as [|p|p]; try lia.
  pose proof (digits2_pos_bounds p) as [Hlo _].
  change (Zdigits2 (Zpos p)) with (Zpos (digits2_pos p)) in *.
  assert (2 ^ (Zpos (digits2_pos p) - 1 + n) < 2 ^ Zdigits2 (Zpos p * 2 ^ n)) as Hpow.
  { rewrite Z.pow_add_r by lia.
    eapply Z.le_lt_trans; [|exact Hhi'].
    apply Z.mul_le_mono_nonneg_r; lia. }
  apply Z.pow_lt_mono_r_iff in Hpow; lia.
Qed.

End Digits.

Section Rounding.
Import PyFloat.

Lemma shr_m_shr_1 (mrs : shr_record) :
  0 <= shr_m mrs -> shr_m (shr_1 mrs) = shr_m mrs / 2.
Proof.
  destruct mrs as [m r s]. simpl. intros Hm.
  destruct m as [|[p|p|]|p]; try lia; unfold shr_m.
  - reflexivity.
  - apply (Z.div_unique _ 2 _ 1); lia.
  - apply (Z.div_unique _ 2 _ 0); lia.
  - reflexivity.
Qed.

Lemma shr_m_iter (p : positive) (mrs : shr_record) :
  0 <= shr_m mrs ->
  shr_m (SpecFloat.iter_pos shr_1 p mrs) = shr_m mrs / 2 ^ Zpos p.
Proof.
  revert mrs. induction p as [p IH|p IH|]; intros mrs Hm; simpl SpecFloat.iter_pos.
  - assert (0 <= shr_m (shr_1 mrs)) as H1
      by (rewrite shr_m_shr_1 by assumption; apply Z.div_pos; lia).
    assert (0 < 2 ^ Zpos p) as Hp by (apply Z.pow_pos_nonneg; lia).
    assert (0 <= shr_m (SpecFloat.iter_pos shr_1 p (shr_1 mrs))) as H2
      by (rewrite IH by assumption; apply Z.div_pos; lia).
    rewrite IH, IH, shr_m_shr_1 by assumption.
    rewrite !Z.div_div by lia. f_equal.
    change (Zpos p~1) with (2 * Zpos p + 1).
    rewrite Z.pow_add_r, Z.pow_mul_r by lia.
    change (2 ^ 2) with 4. change (2 ^ 1) with 2.
    replace 4 with (2 * 2) by lia. rewrite Z.pow_mul_l. lia.
  - assert (0 < 2 ^ Zpos p) as Hp by (apply Z.pow_pos_nonneg; lia).
    assert (0 <= shr_m (SpecFloat.iter_pos shr_1 p mrs)) as H2
      by (rewrite IH by assumption; apply Z.div_pos; lia).
    rewrite IH, IH by assumption.
    rewrite !Z.div_div by lia. f_equal.
    change (Zpos p~0) with (2 * Zpos p).
    rewrite Z.pow_mul_r by lia.
    change (2 ^ 2) with 4.
    replace 4 with (2 * 2) by lia. rewrite Z.pow_mul_l. lia.
  - rewrite shr_m_shr_1 by assumption. reflexivity.
Qed.

Lemma shr_m_of_loc (m : Z) (l : location) : shr_m (shr_record_of_loc m l) = m.
Proof. destruct l as [|[]]; reflexivity. Qed.

(** One shift step: the mantissa and exponent after [shr_fexp]. *)
Lemma shr_fexp_spec (m e : Z) (l : location) :
  0 <= m ->
  exists mrs e',
    shr_fexp prec emax m e l = (mrs, e') /\
    0 <= shr_m mrs /\
    e' = Z.max e (fexp prec emax (Zdigits2 m + e)) /\
    (0 < shr_m mrs -> Zdigits2 (shr_m mrs) + e' <= Zdigits2 m + e) /\
    (fexp prec emax (Zdigits2 m + e) <= e -> mrs = shr_record_of_loc m l).
Proof.
  intros Hm. unfold shr_fexp, shr.
  destruct (fexp prec emax (Zdigits2 m + e) - e) as [|p|p] eqn:Hn.
  - eexists _, _. split; [reflexivity|]. rewrite shr_m_of_loc.
    repeat split; try lia. 
  - eexists _, _. split; [reflexivity|].
    rewrite shr_m_iter by (rewrite shr_m_of_loc; assumption).
    rewrite shr_m_of_loc.
    assert (0 < 2 ^ Zpos p) as Hp by (apply Z.pow_pos_nonneg; lia).
    repeat split; try lia.
    + apply Z.div_pos; lia.
    + intros Hpos.
      pose proof (Zdigits2_div_pow m (Zpos p) Hm ltac:(lia) Hpos). lia.
  - eexists _, _. split; [reflexivity|]. rewrite shr_m_of_loc.
    repeat split; try lia.
Qed.

Lemma round_nearest_even_bounds (m : Z) (l : location) :
  m <= round_nearest_even m l <= m + 1.
Proof.
  destruct l as [|[]]; simpl; try lia. destruct (Z.even m); lia.
Qed.

Lemma fexp_eq (t : Z) : fexp prec emax t = Z.max (t - 53) (-1074).
Proof. reflexivity. Qed.

Lemma binary_round_aux_bounded (sx : bool) (mx ex B : Z) :
  0 <= mx -> Zdigits2 mx + ex <= B -> ex <= 971 -> B <= 1022 ->
  bounded (binary_round_aux prec emax sx mx ex loc_Exact) (Z.max (B + 1) (-1073)).
Proof.
  intros Hmx Hd Hex HB. unfold binary_round_aux.
  destruct (shr_fexp_spec mx ex loc_Exact Hmx)
    as (mrs' & e' & -> & Hm' & He' & Hd' & Hexact).
  set (m1 := round_nearest_even (shr_m mrs') (loc_of_shr_record mrs')).
  assert (shr_m mrs' <= m1 <= shr_m mrs' + 1) as Hm1
    by apply round_nearest_even_bounds.
  assert (0 <= m1) as Hm1pos by lia.
  rewrite fexp_eq in He'.
  assert (Zdigits2 m1 + e' <= Z.max (B + 1) (-1073)) as Hd1.
  { destruct (Z_le_gt_dec (fexp prec emax (Zdigits2 mx + ex)) ex) as [Hns|Hs].
    - (* no shift: the mantissa is kept *)
      pose proof (Hexact Hns) as Hrec. subst mrs'. subst m1. simpl.
      rewrite fexp_eq in Hns. lia.
    - rewrite fexp_eq in Hs.
      destruct (Z.eq_dec (shr_m mrs') 0) as [Hz|Hnz].
      + assert (Zdigits2 m1 <= 1).
        { apply Zdigits2_le; [lia|]. change (2 ^ 1) with 2. lia. }
        lia.
      + pose proof (Zdigits2_succ (shr_m mrs') Hm') as Hsucc.
        pose proof (Zdigits2_mono m1 (shr_m mrs' + 1) ltac:(lia)).
        specialize (Hd' ltac:(lia)). lia. }
  destruct (shr_fexp_spec m1 e' loc_Exact Hm1pos)
    as (mrs'' & e'' & -> & Hm'' & He'' & Hd'' & _).
  rewrite fexp_eq in He''.
  destruct (shr_m mrs'') as [|m|m] eqn:Hmm; [exact I| |lia].
  assert (e'' <= 971) as Hle by lia.
  rewrite (proj2 (Z.leb_le e'' (emax - prec))) by (change (emax - prec) with 971; lia).
  simpl. split; [|assumption].
  specialize (Hd'' ltac:(lia)). simpl in Hd''. lia.
Qed.


Lemma bounded_mono (x : spec_float) (B B' : Z) :
  bounded x B -> B <= B' -> bounded x B'.
Proof. destruct x; simpl; try tauto. lia. Qed.

Lemma Pos_iter_xO (m d : positive) :
  Zpos (Pos.iter xO m d) = Zpos m * 2 ^ Zpos d.
Proof.
  induction d as [|d IH] using Pos.peano_ind.
  - simpl. lia.
  - rewrite Pos.iter_succ, Pos2Z.inj_succ, Z.pow_succ_r by lia.
    change (Zpos (Pos.iter xO m d)~0) with (2 * Zpos (Pos.iter xO m d)).
    rewrite IH. lia.
Qed.

Lemma shl_align_spec (mx : positive) (ex ex' : Z) :
  exists mz ez,
    shl_align mx ex ex' = (mz, ez) ∧ (ez = Z.min ex ex') ∧
    (Zpos mz = Zpos mx * 2 ^ (ex - ez)) ∧
    (Zpos (digits2_pos mz) + ez = Zpos (digits2_pos mx) + ex).
Proof.
  unfold shl_align. destruct (ex' - ex) as [|d|d] eqn:Hd.
  - eexists _, _. split; [reflexivity|]. rewrite Z.sub_diag. simpl. lia.
  - eexists _, _. split; [reflexivity|]. rewrite Z.sub_diag. simpl. lia.
  - eexists _, _. split; [reflexivity|]. split; [lia|].
    replace (ex - ex') with (Zpos d) by lia.
    split; [apply Pos_iter_xO|].
    change (Zpos (digits2_pos (Pos.iter xO mx d)))
      with (Zdigits2 (Zpos (Pos.iter xO mx d))).
    rewrite Pos_iter_xO, Zdigits2_mul_pow by lia. simpl. lia.
Qed.

Lemma binary_round_bounded (sx : bool) (mx : positive) (ex B : Z) :
  Zpos (digits2_pos mx) + ex <= B -> ex <= 971 -> B <= 1022 ->
  bounded (binary_round prec emax sx mx ex) (Z.max (B + 1) (-1073)).
Proof.
  intros Hd Hex HB. unfold binary_round.
  destruct (shl_align_spec mx ex (fexp prec emax (Zpos (digits2_pos mx) + ex)))
    as (mz & ez & -> & Hez & _ & Hdz).
  apply binary_round_aux_bounded; simpl; lia.
Qed.

Lemma binary_normalize_bounded (m e B : Z) (szero : bool) :
  Zdigits2 m + e <= B -> e <= 971 -> B <= 1022 ->
  bounded (binary_normalize prec emax m e szero) (Z.max (B + 1) (-1073)).
Proof.
  intros Hd He HB. destruct m as [|p|p]; simpl binary_normalize.
  - exact I.
  - apply binary_round_bounded; assumption.
  - apply binary_round_bounded; assumption.
Qed.

End Rounding.

(** ** Facts about the float operations *)

Section FloatFacts.
Import PyFloat.

(** The magnitude of a finite non-zero float is positive. *)
Lemma SF2Q_finite_sign (s : bool) (m : positive) (e : Z) (q : Q) :
  SF2Q (S754_finite s m e) = Some q →
  if s then (q < 0)%Q else (0 < q)%Q.
Proof.
  simpl. intros [= <-].
  assert (0 < if 0 <=? e then inject_Z (Z.pos m * 2 ^ e)
              else Z.pos m # Z.to_pos (2 ^ (- e)))%Q as Hpos.
  { destruct (0 <=? e) eqn:He.
    - apply Z.leb_le in He. unfold Qlt, inject_Z; simpl.
      assert (0 < 2 ^ e) by (apply Z.pow_pos_nonneg; lia). nia.
    - unfold Qlt; simpl. lia. }
  destruct s; [|done].
  apply Qopp_lt_compat in Hpos. exact Hpos.
Qed.

Lemma float_lt_zero_r (x : spec_float) (q : Q) :
  SF2Q x = Some q → (float_lt x (S754_zero false) = true ↔ (q < 0)%Q).
Proof.
  intros Hq. destruct x as [s|s| |s m e]; try done.
  - simpl in Hq. injection Hq as <-. split; [done|]. intros H. by apply Qlt_irrefl in H.
  - pose proof (SF2Q_finite_sign s m e q Hq) as Hs.
    unfold float_lt, SFltb; simpl. destruct s; split; try done.
    intros H. exfalso. eapply Qlt_irrefl, Qlt_trans; eassumption.
Qed.

Lemma float_lt_zero_l (x : spec_float) (q : Q) :
  SF2Q x = Some q → (float_lt (S754_zero false) x = true ↔ (0 < q)%Q).
Proof.
  intros Hq. destruct x as [s|s| |s m e]; try done.
  - simpl in Hq. injection Hq as <-. split; [done|]. intros H. by apply Qlt_irrefl in H.
  - pose proof (SF2Q_finite_sign s m e q Hq) as Hs.
    unfold float_lt, SFltb; simpl. destruct s; split; try done.
    intros H. exfalso. eapply Qlt_irrefl, Qlt_trans; eassumption.
Qed.

(** [int(x)] succeeds exactly on the finite floats, with the integer part
    of the value. *)
Lemma py_int_trunc (x : spec_float) (z : Z) :
  py_int x = Ok z → ∃ q, SF2Q x = Some q ∧ z = Qtrunc q.
Proof.
  destruct x as [s|s| |s m e]; simpl; try done.
  - intros [= <-]. by exists 0%Q.
  - intros [= <-]. eexists. split; [done|].
    pose proof (SF2Q_finite_sign s m e _ eq_refl) as Hs. simpl in Hs.
    unfold Qtrunc.
    destruct s.
    + match goal with |- context [Qle_bool 0 ?q] => destruct (Qle_bool 0 q) eqn:Hb end.
      { apply Qle_bool_iff in Hb. exfalso.
        eapply Qlt_irrefl, Qlt_le_trans; eassumption. }
      rewrite Qopp_involutive.
      f_equal. destruct (0 <=? e) eqn:He; simpl; [by rewrite Z.div_1_r|].
      apply Z.leb_gt in He.
      rewrite Z2Pos.id; [done|]. apply Z.pow_pos_nonneg; lia.
    + rewrite (proj2 (Qle_bool_iff _ _)) by by apply Qlt_le_weak.
      destruct (0 <=? e) eqn:He; simpl; [by rewrite Z.div_1_r|].
      apply Z.leb_gt in He.
      rewrite Z2Pos.id; [done|]. apply Z.pow_pos_nonneg; lia.
Qed.

Lemma SF2Q_abs (x : spec_float) (q : Q) :
  SF2Q x = Some q → ∃ q', SF2Q (SFabs x) = Some q' ∧ (q' == Qabs q)%Q.
Proof.
  intros Hq. destruct x as [s|s| |s m e]; try done.
  - simpl in *. injection Hq as <-. by exists 0%Q.
  - pose proof (SF2Q_finite_sign s m e q Hq) as Hs.
    pose proof (SF2Q_finite_sign false m e _ eq_refl) as Hp.
    simpl in Hq. injection Hq as <-. eexists. split; [done|].
    destruct s.
    + rewrite Qabs_opp. symmetry. apply Qabs_pos. by apply Qlt_le_weak.
    + symmetry. apply Qabs_pos. by apply Qlt_le_weak.
Qed.

Lemma Qtrunc_nonneg (q : Q) : (0 <= q)%Q → Qtrunc q = Qfloor q.
Proof. intros H. unfold Qtrunc. by rewrite (proj2 (Qle_bool_iff _ _)). Qed.

Lemma Qtrunc_comp (q q' : Q) : (q == q')%Q → Qtrunc q = Qtrunc q'.
Proof.
  intros H. unfold Qtrunc.
  assert (Qle_bool 0 q = Qle_bool 0 q') as ->.
  { apply eq_true_iff_eq. rewrite !Qle_bool_iff. by rewrite H. }
  destruct (Qle_bool 0 q'); [by apply Qfloor_comp|].
  f_equal. apply Qfloor_comp. by rewrite H.
Qed.

(** [round_half_even] is within one half of its argument. *)
Lemma round_half_even_near (y : Q) :
  (Qabs (inject_Z (round_half_even y) - y) <= 1 # 2)%Q.
Proof.
  unfold round_half_even.
  pose proof (Qfloor_le y) as Hlo. pose proof (Qlt_floor y) as Hhi.
  rewrite inject_Z_plus in Hhi. change (inject_Z 1) with 1%Q in Hhi.
  apply Qabs_Qle_condition.
  destruct (y - inject_Z (Qfloor y) ?= 1 # 2)%Q eqn:Hc.
  - apply Qeq_alt in Hc. destruct (Z.even (Qfloor y)).
    + split; lra.
    + rewrite inject_Z_plus. change (inject_Z 1) with 1%Q. split; lra.
  - apply Qlt_alt in Hc. split; lra.
  - apply Qgt_alt in Hc. rewrite inject_Z_plus. change (inject_Z 1) with 1%Q.
    split; lra.
Qed.

End FloatFacts.

(** ** [to_deg] returns for every coordinate *)

Section FloatSizes.
Import PyFloat JpegFile.

Lemma Zdigits2_abs (z : Z) : Zdigits2 (Z.abs z) = Zdigits2 z.
Proof. by destruct z. Qed.

Lemma bounded_abs (x : spec_float) (B : Z) : bounded x B → bounded (SFabs x) B.
Proof. by destruct x. Qed.

Lemma SFmul_sixty_bounded (x : spec_float) (B : Z) :
  bounded x B → B <= 1015 →
  bounded (SF64mul x sixty) (Z.max (B + 7) (-1073)).
Proof.
  destruct x as [s|s| |s m e]; simpl; try done.
  intros [Hd He] HB.
  apply bounded_mono with (Z.max (B + 6 + 1) (-1073)); [|lia].
  apply binary_round_aux_bounded; try lia.
  rewrite Pos2Z.inj_mul.
  pose proof (Zdigits2_mul (Zpos m) 8444249301319680 ltac:(lia) ltac:(lia)) as Hmul.
  change (Zdigits2 8444249301319680) with 53 in Hmul.
  change (Zdigits2 (Zpos m)) with (Zpos (digits2_pos m)) in Hmul. lia.
Qed.

Lemma SFsub_bounded (x y : spec_float) (B : Z) :
  bounded x B → bounded y B → B <= 1020 →
  bounded (SF64sub x y) (Z.max (B + 2) (-1073)).
Proof.
  intros Hx Hy HB.
  destruct x as [sx|sx| |sx mx ex], y as [sy|sy| |sy my ey]; simpl in Hx, Hy; try done.
  - simpl. by destruct sx, sy.
  - simpl. lia.
  - simpl. lia.
  - unfold SF64sub, SFsub.
    destruct Hx as [Hdx Hex], Hy as [Hdy Hey].
    destruct (shl_align_spec mx ex (Z.min ex ey)) as (mzx & ezx & -> & Hezx & Hvx & Hdzx).
    destruct (shl_align_spec my ey (Z.min ex ey)) as (mzy & ezy & -> & Hezy & Hvy & Hdzy).
    simpl fst.
    apply bounded_mono with (Z.max (B + 1 + 1) (-1073)); [|lia].
    apply binary_normalize_bounded; try lia.
    set (ez := Z.min ex ey) in *.
    assert (ezx = ez) as -> by lia. assert (ezy = ez) as -> by lia.
    pose proof (Zdigits2_lt_pow (Zpos mzx) ltac:(lia)) as Hltx.
    pose proof (Zdigits2_lt_pow (Zpos mzy) ltac:(lia)) as Hlty.
    change (Zdigits2 (Zpos mzx)) with (Zpos (digits2_pos mzx)) in Hltx.
    change (Zdigits2 (Zpos mzy)) with (Zpos (digits2_pos mzy)) in Hlty.
    assert (2 ^ Zpos (digits2_pos mzx) <= 2 ^ (B - ez)) as Hpx
      by (apply Z.pow_le_mono_r; lia).
    assert (2 ^ Zpos (digits2_pos mzy) <= 2 ^ (B - ez)) as Hpy
      by (apply Z.pow_le_mono_r; lia).
    rewrite <- Zdigits2_abs.
    assert (Zdigits2 (Z.abs (cond_Zopp sx (Zpos mzx) - cond_Zopp sy (Zpos mzy)))
            <= B + 1 - ez); [|lia].
    apply Zdigits2_le; [lia|]. split; [lia|].
    replace (B + 1 - ez) with (Z.succ (B - ez)) by lia.
    rewrite Z.pow_succ_r by lia.
    destruct sx, sy; simpl; lia.
Qed.

Lemma Q2SF_int_bounded (z B : Z) :
  Zdigits2 z <= B → 0 <= B <= 1021 → bounded (Q2SF (inject_Z z)) (B + 1).
Proof.
  intros Hd HB. unfold Q2SF. simpl Qnum. simpl Qden.
  destruct z as [|p|p]; [exact I| |].
  all: set (k := Z.max 0 (Z.log2 1 - Z.log2 (Z.abs _) + 56)).
  all: rewrite Z.div_1_r, Z.mod_1_r; simpl (if 0 =? 0 then 0 else 1).
  all: apply bounded_mono with (Z.max (B + 1) (-1073)); [|lia].
  all: apply binary_normalize_bounded; try lia.
  all: simpl (if _ <? 0 then _ else _).
  all: try rewrite <- Zdigits2_abs, Z.abs_opp.
  all: rewrite Z.add_0_r.
  all: replace (2 * (Z.abs _ * 2 ^ k)) with (Z.abs (Zpos p) * 2 ^ (k + 1))
         by (rewrite Z.pow_add_r by lia; simpl Z.abs; lia).
  all: try rewrite Z.abs_eq by (apply Z.mul_nonneg_nonneg; [simpl; lia | apply Z.pow_nonneg; lia]).
  all: rewrite Zdigits2_mul_pow by (simpl; lia).
  all: simpl in *; lia.
Qed.

Lemma float_of_int_total (z B : Z) :
  Zdigits2 z <= B → 0 <= B <= 1021 →
  ∃ x, float_of_int z = Ok x ∧ bounded x (B + 1).
Proof.
  intros Hd HB. pose proof (Q2SF_int_bounded z B Hd HB) as Hb.
  unfold float_of_int. destruct (Q2SF (inject_Z z)) eqn:Hq; try done; eauto.
Qed.

Lemma py_int_total (x : spec_float) (B : Z) :
  bounded x B → ∃ z, py_int x = Ok z ∧ Zdigits2 z <= Z.max B 0.
Proof.
  destruct x as [s|s| |s m e]; simpl; try done.
  - intros _. exists 0. split; [done|]. simpl. lia.
  - intros [Hd He]. eexists. split; [reflexivity|].
    assert (Zdigits2 (if 0 <=? e then Zpos m * 2 ^ e else Zpos m / 2 ^ (- e))
            <= Z.max B 0) as Hq.
    { destruct (0 <=? e) eqn:Hle.
      - apply Z.leb_le in Hle. rewrite Zdigits2_mul_pow by lia. simpl. lia.
      - apply Z.leb_gt in Hle.
        assert (0 < 2 ^ (- e)) by (apply Z.pow_pos_nonneg; lia).
        destruct (Z.eq_dec (Zpos m / 2 ^ (- e)) 0) as [->|Hnz]; [simpl; lia|].
        assert (0 <= Zpos m / 2 ^ (- e)) by (apply Z.div_pos; lia).
        pose proof (Zdigits2_div_pow (Zpos m) (- e) ltac:(lia) ltac:(lia) ltac:(lia)).
        simpl in *. lia. }
    destruct s; [|done].
    by rewrite <- Zdigits2_abs, Z.abs_opp, Zdigits2_abs.
Qed.

Lemma bounded_SF2Q (x : spec_float) (B : Z) :
  bounded x B → ∃ q, SF2Q x = Some q.
Proof. destruct x; simpl; try done; eauto. Qed.

(** The float nearest to a rational below [2 ^ B] is finite. *)
Lemma Q2SF_bounded (q : Q) (B : Z) :
  0 <= B <= 1021 → Z.abs (Qnum q) < 2 ^ B * Zpos (Qden q) →
  bounded (Q2SF q) (B + 2).
Proof.
  intros HB Hq. unfold Q2SF.
  destruct (Qnum q) as [|p|p] eqn:Ha; [exact I| |].
  all: set (a := Z.abs _) in *.
  all: set (b := Zpos (Qden q)) in *.
  all: set (k := Z.max 0 (Z.log2 b - Z.log2 a + 56)).
  all: assert (0 < b) as Hb by (subst b; lia).
  all: assert (0 < a) as Hapos by (subst a; simpl; lia).
  all: assert (0 <= k) as Hk by (subst k; lia).
  all: assert (0 < 2 ^ k) as H2k by (apply Z.pow_pos_nonneg; lia).
  all: assert (0 <= a * 2 ^ k / b < 2 ^ (B + k)) as [Hq0 Hq1].
  1,3: split; [apply Z.div_pos; [apply Z.mul_nonneg_nonneg|]; lia|];
       apply Z.div_lt_upper_bound; [lia|];
       rewrite Z.pow_add_r by lia;
       replace (b * (2 ^ B * 2 ^ k)) with ((2 ^ B * b) * 2 ^ k) by lia;
       apply Z.mul_lt_mono_pos_r; lia.
  all: set (m := 2 * (a * 2 ^ k / b) + (if a * 2 ^ k mod b =? 0 then 0 else 1)).
  all: assert (0 <= m < 2 ^ (B + k + 2)) as Hm.
  1,3: subst m; replace (B + k + 2) with (Z.succ (Z.succ (B + k))) by lia;
       rewrite !Z.pow_succ_r by lia; destruct (_ =? 0); lia.
  all: apply bounded_mono with (Z.max (B + 1 + 1) (-1073)); [|lia].
  all: apply binary_normalize_bounded; try lia.
  all: simpl (if _ <? 0 then _ else _).
  all: try rewrite <- Zdigits2_abs, Z.abs_opp, Zdigits2_abs.
  all: assert (Zdigits2 m <= B + k + 2) by (apply Zdigits2_le; lia); lia.
Qed.

(** The value of a float below [2 ^ B]. *)
Lemma bounded_value (x : spec_float) (B : Z) (q : Q) :
  0 <= B → bounded x B → SF2Q x = Some q →
  Z.abs (Qnum q) < 2 ^ B * Zpos (Qden q).
Proof.
  intros HB Hx Hq. destruct x as [s|s| |s m e]; simpl in *; try done.
  - injection Hq as <-. simpl. assert (0 < 2 ^ B) by (apply Z.pow_pos_nonneg; lia). lia.
  - destruct Hx as [Hd He]. injection Hq as <-.
    pose proof (digits2_pos_bounds m) as [_ Hm].
    assert (0 < 2 ^ B) by (apply Z.pow_pos_nonneg; lia).
    assert (Z.abs (Qnum (if 0 <=? e then inject_Z (Z.pos m * 2 ^ e)
                         else Z.pos m # Z.to_pos (2 ^ (- e))))
            < 2 ^ B * Zpos (Qden (if 0 <=? e then inject_Z (Z.pos m * 2 ^ e)
                                  else Z.pos m # Z.to_pos (2 ^ (- e))))) as Hv.
    { destruct (0 <=? e) eqn:Hle; simpl.
      - apply Z.leb_le in Hle.
        assert (0 < 2 ^ e) by (apply Z.pow_pos_nonneg; lia).
        rewrite Z.abs_eq by (apply Z.mul_nonneg_nonneg; lia).
        replace B with (B - e + e) by lia. rewrite Z.pow_add_r by lia.
        rewrite Z.mul_1_r. apply Z.mul_lt_mono_pos_r; [lia|].
        eapply Z.lt_le_trans; [exact Hm|]. apply Z.pow_le_mono_r; lia.
      - apply Z.leb_gt in Hle.
        assert (0 < 2 ^ (- e)) by (apply Z.pow_pos_nonneg; lia).
        rewrite Z2Pos.id by lia. rewrite <- Z.pow_add_r by lia.
        eapply Z.lt_le_trans; [exact Hm|]. apply Z.pow_le_mono_r; lia. }
    destruct s; [|exact Hv].
    destruct (if 0 <=? e then _ else _) as [qn qd]. simpl in *.
    by rewrite Z.abs_opp.
Qed.

(** [round(x, 5)] of a float below [2 ^ B] is finite. *)
Lemma py_round_bounded (x : spec_float) (B : Z) :
  0 <= B <= 1020 → bounded x B → bounded (py_round x 5) (B + 3).
Proof.
  intros HB Hx. destruct (bounded_SF2Q x B Hx) as [q Hq].
  pose proof (bounded_value x B q ltac:(lia) Hx Hq) as Hv.
  unfold py_round. rewrite Hq.
  pose proof (round_half_even_near (q * pow10 5)) as Hn.
  set (n := round_half_even (q * pow10 5)) in *.
  assert (bounded (Q2SF (inject_Z n * pow10 (-5))) (B + 3)) as Hres.
  { apply bounded_mono with (B + 1 + 2); [|lia].
    apply (Q2SF_bounded _ (B + 1)); [lia|].
    apply Qabs_Qle_condition in Hn. destruct Hn as [Hlo Hhi].
    destruct q as [qn qd]. simpl in Hv.
    change (pow10 5) with (100000 # 1)%Q in Hlo, Hhi.
    change (pow10 (-5)) with (1 # 100000)%Q.
    unfold Qle, Qminus, Qplus, Qmult, Qopp, inject_Z in Hlo, Hhi; simpl in Hlo, Hhi.
    simpl. rewrite Z.pow_add_r by lia. change (2 ^ 1) with 2.
    assert (0 < 2 ^ B) by (apply Z.pow_pos_nonneg; lia).
    nia. }
  destruct n as [|p|p]; [|exact Hres..].
  by destruct x.
Qed.

(** [to_deg] returns for every finite float below [2 ^ 1000] in
    magnitude: no conversion overflows and every intermediate float is
    finite, the one that is rounded to the seconds and the seconds
    included. *)
Lemma to_deg_total (value : spec_float) (loc : string * string) :
  bounded value 1000 →
  ∃ (deg min : Z) (sec : spec_float) (ref : string),
    to_deg value loc = Ok (deg, min, sec, ref) ∧
    bounded sec 1023 ∧
    ∀ fdeg fmin, float_of_int deg = Ok fdeg → float_of_int min = Ok fmin →
      bounded (SF64mul (SF64sub (SF64mul (SF64sub (SFabs value) fdeg) sixty) fmin)
                       sixty) 1020.
Proof.
  intros Hv. unfold to_deg, float_sub_int, float_mul_int.
  change (float_of_int 60) with (Ok sixty).
  destruct (py_int_total (SFabs value) 1000 (bounded_abs _ _ Hv)) as (deg & -> & Hdeg).
  simpl.
  destruct (float_of_int_total deg 1000 ltac:(lia) ltac:(lia)) as (fdeg & Hfd & Hfdeg).
  rewrite Hfd. simpl.
  assert (bounded (SF64sub (SFabs value) fdeg) 1003) as Hfrac.
  { eapply bounded_mono; [apply (SFsub_bounded _ _ 1001)|]; try lia; [|done].
    eapply bounded_mono; [apply bounded_abs, Hv|lia]. }
  assert (bounded (SF64mul (SF64sub (SFabs value) fdeg) sixty) 1010) as Ht1.
  { eapply bounded_mono; [apply (SFmul_sixty_bounded _ 1003)|]; try lia; done. }
  destruct (py_int_total _ 1010 Ht1) as (min & -> & Hmin).
  simpl.
  destruct (float_of_int_total min 1010 ltac:(lia) ltac:(lia)) as (fmin & Hfm & Hfmin).
  rewrite Hfm. simpl.
  assert (bounded (SF64mul (SF64sub (SF64mul (SF64sub (SFabs value) fdeg) sixty) fmin)
                           sixty) 1020) as Hsec60.
  { eapply bounded_mono; [apply (SFmul_sixty_bounded _ 1013)|]; try lia.
    eapply bounded_mono; [apply (SFsub_bounded _ _ 1011)|]; try lia; [|done].
    eapply bounded_mono; [exact Ht1|lia]. }
  eexists _, _, _, _. split_and!; [done| |].
  - apply (py_round_bounded _ 1020); [lia|exact Hsec60].
  - intros fdeg' fmin' Hfd' Hfm'. rewrite Hfd in Hfd'. rewrite Hfm in Hfm'.
    by injection Hfd' as <-; injection Hfm' as <-.
Qed.

(** [str] of a finite float is a decimal. *)
Lemma repr_value_total (x : spec_float) (B : Z) :
  bounded x B → ∃ d, repr_value x = Some d.
Proof.
  intros Hx. destruct x as [s|s| |s m e]; [|destruct Hx|destruct Hx|].
  - by exists 0%Q.
  - unfold repr_value.
    destruct (SF2Q (SFabs (S754_finite s m e))) as [v|] eqn:Hv; [eauto|].
    discriminate Hv.
Qed.

End FloatSizes.

(** ** The claims about the encoding and the write *)

Section EncodingClaims.
Import piexif PyFloat JpegFile.

Lemma float_of_int_60 : float_of_int 60 = Ok sixty.
Proof. reflexivity. Qed.

(** What [to_deg] computed when it returns. *)
Lemma to_deg_inv (value : spec_float) (neg pos : string)
    (deg min : Z) (sec : spec_float) (ref : string) :
  to_deg value (neg, pos) = Ok (deg, min, sec, ref) →
  ∃ fdeg fmin : spec_float,
    ref = (if float_lt value (S754_zero false) then neg
           else if float_lt (S754_zero false) value then pos else "") ∧
    py_int (SFabs value) = Ok deg ∧
    float_of_int deg = Ok fdeg ∧
    py_int (SF64mul (SF64sub (SFabs value) fdeg) sixty) = Ok min ∧
    float_of_int min = Ok fmin ∧
    sec = py_round
            (SF64mul (SF64sub (SF64mul (SF64sub (SFabs value) fdeg) sixty) fmin)
                     sixty) 5.
Proof.
  unfold to_deg, float_sub_int, float_mul_int. rewrite float_of_int_60. simpl.
  destruct (py_int (SFabs value)) as [deg'|] eqn:Hdeg; simpl; [|done].
  destruct (float_of_int deg') as [fdeg|] eqn:Hfdeg; simpl; [|done].
  destruct (py_int (SF64mul (SF64sub (SFabs value) fdeg) sixty)) as [min'|] eqn:Hmin;
    simpl; [|done].
  destruct (float_of_int min') as [fmin|] eqn:Hfmin; simpl; [|done].
  intros [= <- <- <- <-]. by exists fdeg, fmin.
Qed.

(** What [to_deg] returns, when it returns, in terms of the values of the
    floats it computes. *)
Lemma to_deg_spec (value : spec_float) (neg pos : string)
    (deg min : Z) (sec : spec_float) (ref : string) :
  to_deg value (neg, pos) = Ok (deg, min, sec, ref) →
  ∃ (q : Q) (fdeg fmin : spec_float) (qmin : Q),
    SF2Q value = Some q ∧
    ((q < 0)%Q → ref = neg) ∧ ((0 < q)%Q → ref = pos) ∧
    ((q == 0)%Q → ref = "") ∧
    deg = Qfloor (Qabs q) ∧
    float_of_int deg = Ok fdeg ∧
    SF2Q (SF64mul (SF64sub (SFabs value) fdeg) sixty) = Some qmin ∧
    min = Qtrunc qmin ∧
    float_of_int min = Ok fmin ∧
    (∀ qsec,
       SF2Q (SF64mul (SF64sub (SF64mul (SF64sub (SFabs value) fdeg) sixty) fmin)
                     sixty) = Some qsec →
       ∃ n : Z,
         (Qabs (inject_Z n - qsec * pow10 5) <= 1 # 2)%Q ∧
         (n ≠ 0 → sec = Q2SF (inject_Z n * pow10 (-5))) ∧
         (n = 0 → SF2Q sec = Some 0%Q)).
Proof.
  intros Hret.
  destruct (to_deg_inv _ _ _ _ _ _ _ Hret)
    as (fdeg & fmin & Href & Hdeg & Hfdeg & Hmin & Hfmin & Hsec).
  destruct (py_int_trunc _ _ Hdeg) as (qa & Hqa & Hdeg').
  destruct (py_int_trunc _ _ Hmin) as (qmin & Hqmin & Hmin').
  assert (∃ q, SF2Q value = Some q) as [q Hq].
  { destruct value; try done; eauto. }
  destruct (SF2Q_abs value q Hq) as (qa' & Hqa' & Habs).
  rewrite Hqa in Hqa'. injection Hqa' as <-.
  exists q, fdeg, fmin, qmin. split_and!; try done.
  - intros Hneg. rewrite Href.
    by rewrite (proj2 (float_lt_zero_r value q Hq) Hneg).
  - intros Hpos. rewrite Href.
    destruct (float_lt value (S754_zero false)) eqn:Hlt.
    + apply (float_lt_zero_r value q Hq) in Hlt. exfalso.
      eapply Qlt_irrefl, Qlt_trans; eassumption.
    + by rewrite (proj2 (float_lt_zero_l value q Hq) Hpos).
  - intros Hzero. rewrite Href.
    destruct (float_lt value (S754_zero false)) eqn:Hlt.
    { apply (float_lt_zero_r value q Hq) in Hlt. rewrite Hzero in Hlt.
      by apply Qlt_irrefl in Hlt. }
    destruct (float_lt (S754_zero false) value) eqn:Hgt; [|done].
    apply (float_lt_zero_l value q Hq) in Hgt. rewrite Hzero in Hgt.
    by apply Qlt_irrefl in Hgt.
  - rewrite Hdeg', (Qtrunc_comp _ _ Habs). apply Qtrunc_nonneg, Qabs_nonneg.
  - intros qsec Hqsec. exists (round_half_even (qsec * pow10 5)).
    split; [apply round_half_even_near|].
    rewrite Hsec. unfold py_round. rewrite Hqsec.
    split.
    + intros Hn. by destruct (round_half_even (qsec * pow10 5)).
    + intros ->. done.
Qed.

(** [change_to_rational] returns a fraction in lowest terms with a
    positive denominator: [(z, 1)] for an int, the value of the decimal
    string of a float. *)
Lemma change_to_rational_spec (n : number) (a b : Z) :
  change_to_rational n = Ok (a, b) →
  0 < b ∧ Z.gcd a b = 1 ∧
  match n with
  | PyInt z => a = z ∧ b = 1
  | PyFloat x => ∃ d, repr_value x = Some d ∧ (a # Z.to_pos b == d)%Q
  end.
Proof.
  unfold change_to_rational, fraction_of_str. destruct n as [z|x].
  - intros [= <- <-]. split_and!; try done. apply Z.gcd_1_r.
  - destruct (repr_value x) as [d|]; [|done].
    intros [= <- <-]. split_and!; [done| |].
    + apply Qred_iff. apply Qred_involutive.
    + exists d. split; [done|].
      transitivity (Qred d); [|apply Qred_correct].
      simpl. by destruct (Qred d).
Qed.

(** [change_to_rational] returns for every int and every finite float. *)
Lemma change_to_rational_total (n : number) :
  match n with PyInt _ => True | PyFloat x => ∃ B, bounded x B end →
  ∃ a b, change_to_rational n = Ok (a, b).
Proof.
  destruct n as [z|x]; [by exists z, 1|].
  intros [B Hx]. destruct (repr_value_total x B Hx) as [d Hd].
  unfold change_to_rational, fraction_of_str. rewrite Hd. eauto.
Qed.

(** The three rationals of a tuple with finite seconds. *)
Lemma exiv_total (deg min : Z) (sec : spec_float) (ref : string) (B : Z) :
  bounded sec B →
  ∃ (a b : Z) (d : Q),
    exiv (deg, min, sec, ref) = Ok [(deg, 1); (min, 1); (a, b)] ∧
    0 < b ∧ Z.gcd a b = 1 ∧
    repr_value sec = Some d ∧ (a # Z.to_pos b == d)%Q.
Proof.
  intros Hsec.
  destruct (change_to_rational_total (PyFloat sec)) as (a & b & Hab); [by exists B|].
  destruct (change_to_rational_spec _ _ _ Hab) as (Hb & Hgcd & d & Hd & Hval).
  exists a, b, d. unfold exiv. cbn [fst snd]. rewrite Hab. done.
Qed.

(** C4.  For every coordinate [value] (a finite float below [2 ^ 1000] in
    magnitude) [to_deg(value, (neg, pos))] returns a tuple
    [(deg, min, sec, ref)] where: [ref] is [neg] for a negative value,
    [pos] for a positive one and the empty string for zero; [deg] is the
    integer part of [|value|]; [min] is the integer part of the float
    [(|value| - deg) * 60]; [sec] is [round(., 5)] of the float
    [((|value| - deg) * 60 - min) * 60], that is the float read from the
    decimal [n / 10^5] for an integer [n] within one half of [10^5] times
    that float.  The three components are then written as the rationals
    [(deg, 1)], [(min, 1)] and [(a, b)], where [a / b] is in lowest terms,
    [b] is positive and [a / b] is the value of the decimal string of
    [sec].  [change_to_rational] returns a fraction in lowest terms
    with a positive denominator: [(z, 1)] for an int, the value of the
    decimal string of a float.  For [lat = -33.456] the result is ['S'],
    33, 27 and the float 21.6, written as the rationals (33, 1), (27, 1),
    (108, 5). *)
Theorem to_deg_encoding :
  (∀ (value : spec_float) (neg pos : string),
     bounded value 1000 →
     ∃ (deg min : Z) (sec : spec_float) (ref : string)
       (q : Q) (fdeg fmin : spec_float) (qmin qsec : Q) (n a b : Z) (d : Q),
       to_deg value (neg, pos) = Ok (deg, min, sec, ref) ∧
       SF2Q value = Some q ∧
       ((q < 0)%Q → ref = neg) ∧ ((0 < q)%Q → ref = pos) ∧
       ((q == 0)%Q → ref = "") ∧
       deg = Qfloor (Qabs q) ∧
       float_of_int deg = Ok fdeg ∧
       SF2Q (SF64mul (SF64sub (SFabs value) fdeg) sixty) = Some qmin ∧
       min = Qtrunc qmin ∧
       float_of_int min = Ok fmin ∧
       SF2Q (SF64mul (SF64sub (SF64mul (SF64sub (SFabs value) fdeg) sixty) fmin)
                     sixty) = Some qsec ∧
       (Qabs (inject_Z n - qsec * pow10 5) <= 1 # 2)%Q ∧
       (n ≠ 0 → sec = Q2SF (inject_Z n * pow10 (-5))) ∧
       (n = 0 → SF2Q sec = Some 0%Q) ∧
       exiv (deg, min, sec, ref) = Ok [(deg, 1); (min, 1); (a, b)] ∧
       0 < b ∧ Z.gcd a b = 1 ∧
       repr_value sec = Some d ∧ (a # Z.to_pos b == d)%Q)
  ∧ (∀ (n : number) (a b : Z),
       change_to_rational n = Ok (a, b) →
       0 < b ∧ Z.gcd a b = 1 ∧
       match n with
       | PyInt z => a = z ∧ b = 1
       | PyFloat x => ∃ d, repr_value x = Some d ∧ (a # Z.to_pos b == d)%Q
       end)
  ∧ to_deg (Q2SF (-33456 # 1000)) ("S", "N") = Ok (33, 27, Q2SF (216 # 10), "S")
  ∧ exiv (33, 27, Q2SF (216 # 10), "S") = Ok [(33, 1); (27, 1); (108, 5)].
Proof.
  split_and!.
  - intros value neg pos Hb.
    destruct (to_deg_total value (neg, pos) Hb)
      as (deg & min & sec & ref & Hret & Hfsec & Hfinite).
    destruct (to_deg_spec _ _ _ _ _ _ _ Hret)
      as (q & fdeg & fmin & qmin & Hq & Hneg & Hpos & Hzero & Hdeg & Hfdeg
          & Hqmin & Hmin & Hfmin & Hsec).
    destruct (bounded_SF2Q _ _ (Hfinite fdeg fmin Hfdeg Hfmin)) as [qsec Hqsec].
    destruct (Hsec qsec Hqsec) as (n & Hn & Hn1 & Hn0).
    destruct (exiv_total deg min sec ref 1023 Hfsec)
      as (a & b & d & Hexiv & Hbpos & Hgcd & Hd & Hval).
    by exists deg, min, sec, ref, q, fdeg, fmin, qmin, qsec, n, a, b, d.
  - apply change_to_rational_spec.
  - vm_compute. reflexivity.
  - vm_compute. reflexivity.
Qed.

(** C4's general part at [lat = -33.456]. *)
Lemma to_deg_encoding_scenario :
  ∃ (deg min : Z) (sec : spec_float) (ref : string)
    (q : Q) (fdeg fmin : spec_float) (qmin qsec : Q) (n a b : Z) (d : Q),
    to_deg (Q2SF (-33456 # 1000)) ("S", "N") = Ok (deg, min, sec, ref) ∧
    SF2Q (Q2SF (-33456 # 1000)) = Some q ∧
    ((q < 0)%Q → ref = "S") ∧ ((0 < q)%Q → ref = "N") ∧
    ((q == 0)%Q → ref = "") ∧
    deg = Qfloor (Qabs q) ∧
    float_of_int deg = Ok fdeg ∧
    SF2Q (SF64mul (SF64sub (SFabs (Q2SF (-33456 # 1000))) fdeg) sixty) = Some qmin ∧
    min = Qtrunc qmin ∧
    float_of_int min = Ok fmin ∧
    SF2Q (SF64mul (SF64sub (SF64mul (SF64sub (SFabs (Q2SF (-33456 # 1000))) fdeg)
                                    sixty) fmin) sixty) = Some qsec ∧
    (Qabs (inject_Z n - qsec * pow10 5) <= 1 # 2)%Q ∧
    (n ≠ 0 → sec = Q2SF (inject_Z n * pow10 (-5))) ∧
    (n = 0 → SF2Q sec = Some 0%Q) ∧
    exiv (deg, min, sec, ref) = Ok [(deg, 1); (min, 1); (a, b)] ∧
    0 < b ∧ Z.gcd a b = 1 ∧
    repr_value sec = Some d ∧ (a # Z.to_pos b == d)%Q.
Proof.
  apply (proj1 to_deg_encoding (Q2SF (-33456 # 1000)) "S" "N").
  vm_compute. split; discriminate.
Defined.

(** [write_lat_lng] itself tests nothing: whatever the ["GPS"] section
    held, after a call that returns the file and the object hold the
    section the method built, and the other sections as before. *)
Lemma write_lat_lng_replaces (fs fs' : files) (self self' : JpegFile.t)
    (lat lng : spec_float) :
  write_lat_lng fs self lat lng = Ok (self', fs') →
  ∃ (self1 : JpegFile.t) (e e' : exif_dict) (lat_ref lng_ref : string)
    (exiv_lat exiv_lng : list (Z * Z)),
    exif fs self = Ok (self1, e) ∧
    e' = <["GPS" := gps_block lat_ref exiv_lat lng_ref exiv_lng]> e ∧
    fs' = <[path self1 := e']> fs ∧
    _exif self' = Some e'.
Proof.
  unfold write_lat_lng.
  destruct (to_deg lat ("S", "N")) as [lat_deg|]; simpl; [|done].
  destruct (to_deg lng ("W", "E")) as [lng_deg|]; simpl; [|done].
  destruct (exiv lat_deg) as [exiv_lat|]; simpl; [|done].
  destruct (exiv lng_deg) as [exiv_lng|]; simpl; [|done].
  destruct (exif fs self) as [[self1 e]|]; simpl; [|done].
  intros [= <- <-]. by eexists self1, e, _, _, _, _, _.
Qed.

(** C8.  For a photo whose ["GPS"] section holds a latitude or a
    longitude tag, the write step of [main] without [--dry_run] takes the
    branch that logs "skipping" and writes nothing: the files are as
    before and the object holds the metadata it read, geotag included.
    (With [--dry_run] nothing is written either.)  The test is the one of
    [main]; [write_lat_lng] has none, see [write_lat_lng_replaces]. *)
Theorem write_skips_geotagged (fs : files) (jpg jpg1 : JpegFile.t)
    (e : exif_dict) (gps : ifd) (lat lng : spec_float) :
  exif fs jpg = Ok (jpg1, e) →
  e !! "GPS" = Some gps →
  is_Some (gps !! GPSIFD.GPSLatitude) ∨ is_Some (gps !! GPSIFD.GPSLongitude) →
  Main.write false fs jpg lat lng = Ok (jpg1, fs, Main.AlreadyGeotagged)
  ∧ exif fs jpg1 = Ok (jpg1, e)
  ∧ Main.write true fs jpg lat lng = Ok (jpg, fs, Main.DryRun).
Proof.
  intros Hexif Hgps Htag. split_and!; [| |done].
  - unfold Main.write, has_geo. simpl. rewrite Hexif. simpl. rewrite Hgps.
    destruct Htag as [H|H].
    + by rewrite (bool_decide_eq_true_2 _ H).
    + rewrite (bool_decide_eq_true_2 (is_Some (gps !! GPSIFD.GPSLongitude)) H).
      by rewrite orb_true_r.
  - unfold exif in *. destruct (_exif jpg) as [e0|] eqn:He0.
    + injection Hexif as <- <-. by rewrite He0.
    + destruct (piexif_load fs (path jpg)); simpl in Hexif; [|done].
      by injection Hexif as <- <-.
Qed.

(** C8 at the photo of the examples that has a latitude tag. *)
Lemma write_skips_geotagged_photo :
  Main.write false Photos.disk (Photos.open "geotagged.jpg")
             (Q2SF (-33456 # 1000)) (Q2SF (1512093 # 10000))
    = Ok (JpegFile.Build "geotagged.jpg" None (Some Photos.geotagged),
          Photos.disk, Main.AlreadyGeotagged)
  ∧ exif Photos.disk (JpegFile.Build "geotagged.jpg" None (Some Photos.geotagged))
    = Ok (JpegFile.Build "geotagged.jpg" None (Some Photos.geotagged), Photos.geotagged)
  ∧ Main.write true Photos.disk (Photos.open "geotagged.jpg")
               (Q2SF (-33456 # 1000)) (Q2SF (1512093 # 10000))
    = Ok (Photos.open "geotagged.jpg", Photos.disk, Main.DryRun).
Proof.
  apply (write_skips_geotagged Photos.disk (Photos.open "geotagged.jpg")
           (JpegFile.Build "geotagged.jpg" None (Some Photos.geotagged))
           Photos.geotagged
           (<[GPSIFD.GPSLatitude := Rationals [(10, 1); (0, 1); (0, 1)]]> ∅)).
  - reflexivity.
  - reflexivity.
  - left. by eexists.
Defined.

End EncodingClaims.

(** ** Checks of the model against values Python computes *)

Section Checks.
Import piexif PyFloat JpegFile.

(** [Q2SF] agrees with the division of the primitive floats, which is the
    correctly rounded quotient. *)
Example Q2SF_is_rounded_quotient :
  Q2SF (-33456 # 1000) = Prim2SF (-33456 / 1000)%float
  ∧ Q2SF (1 # 3) = Prim2SF (1 / 3)%float
  ∧ Q2SF (1512093 # 10000) = Prim2SF (1512093 / 10000)%float.
Proof. vm_compute. done. Qed.

(** The float arithmetic of [to_deg] on -33.456, step by step, against the
    primitive floats. *)
Example to_deg_steps_primitive :
  SF64mul (SF64sub (SF64mul (SF64sub (SFabs (Q2SF (-33456 # 1000))) (Q2SF 33)) sixty)
                   (Q2SF 27)) sixty
  = Prim2SF (((abs (-33456 / 1000) - 33) * 60 - 27) * 60)%float.
Proof. vm_compute. done. Qed.

(** [repr(0.1 + 0.2)] is ['0.30000000000000004'], [round(2.675, 2)] is
    [2.67] and [round(0.125, 2)] is [0.12]. *)
Example repr_and_round_known_values :
  option_map Qred (repr_value (SF64add (Q2SF (1 # 10)) (Q2SF (2 # 10))))
    = Some (7500000000000001 # 25000000000000000)
  ∧ py_round (Q2SF (2675 # 1000)) 2 = Q2SF (267 # 100)
  ∧ py_round (Q2SF (125 # 1000)) 2 = Q2SF (12 # 100).
Proof. vm_compute. done. Qed.

(** The rounding of each float operation shows in the result: for 33.55
    the product [(33.55 - 33) * 60] is just below 33, so the minutes are 32
    and the seconds round to 60.0. *)
Example to_deg_33_55 :
  to_deg (Q2SF (3355 # 100)) ("S", "N") = Ok (33, 32, Q2SF 60, "N")
  ∧ exiv (33, 32, Q2SF 60, "N") = Ok [(33, 1); (32, 1); (60, 1)].
Proof. vm_compute. done. Qed.

(** [__init__] on the history of the examples, without a cache file
    (the pickled bytes are left abstract: here the store itself). *)
Example index_from_history :
  GeoData.init (λ st, st) None Photos.history
  = Ok (Photos.index, Some Photos.index).
Proof. reflexivity. Qed.

(** One turn of the loop of [main] on the photo without geotag: the sample
    100 seconds before the capture time is the closer one, and its
    coordinate is written as degrees, minutes and seconds. *)
Example main_photo_plain :
  (r ← Main.photo Photos.strptime Photos.mktime false 0 (Qc_of_Z 900)
         Photos.index Photos.disk (Photos.open "plain.jpg");
   Ok (r.1.2 !! "plain.jpg" ≫= (.!! "GPS"), r.2, _ts r.1.1))
  = Ok (Some (gps_block "S" [(33, 1); (27, 1); (108, 5)]
                        "E" [(151, 1); (12, 1); (837, 25)]),
        Main.Written, Some 1577872800).
Proof. vm_compute. done. Qed.

End Checks.


(** * Further properties of the script *)

(** ** [GeoData.search] on any list *)

Section SearchProperties.
Import GeoData.
Local Open Scope Qc_scope.



Lemma dist_zero_inv (x : sample) (ts : Qc) : dist x ts = 0 → timestamp x = ts.
Proof.
  unfold dist. intros H.
  destruct (Qclt_le_dec (timestamp x - ts) 0) as [Hneg|Hpos].
  - rewrite Qcabs_neg in H by (by apply Qclt_le_weak). qc_lra.
  - rewrite Qcabs_pos in H by done. qc_lra.
Qed.




(** X3.  On a compiled index of two or more samples, a query at the
    timestamp of a stored sample returns, for a non-negative [max_delta],
    the coordinate of a sample with exactly that timestamp. *)
Theorem search_exact_hit (d : list sample) (ts max_delta : Qc) (x : sample) :
  ts_sorted d → (2 ≤ length d)%nat → x ∈ d → timestamp x = ts → 0 ≤ max_delta →
  ∃ e : sample,
    e ∈ d ∧ timestamp e = ts ∧ search (PyList d) ts max_delta = Ok (coordinate e).
Proof.
  intros Hs Hlen Hx Hts Hmd.
  apply list_elem_of_lookup_1 in Hx as [i Hi].
  (* a pair that has [x] as an endpoint brackets the query *)
  assert (∃ k a b, d !! k = Some a ∧ d !! S k = Some b ∧
                   timestamp a ≤ ts ∧ ts ≤ timestamp b ∧
                   (dist a ts = 0 ∨ dist b ts = 0)) as (k & a & b & Ha & Hb & Hat & Htb & Hz).
  { destruct (decide (S i < length d)%nat) as [Hin|Hlast].
    - destruct (lookup_lt_is_Some_2 d (S i) Hin) as [b Hb].
      exists i, x, b. split_and!; try done.
      + rewrite Hts. apply Qcle_refl.
      + rewrite <- Hts. eapply (ts_sorted_lookup d i (S i)); done || lia.
      + left. by apply dist_zero.
    - pose proof (lookup_lt_Some _ _ _ Hi) as Hil.
      destruct i as [|i]; [lia|].
      destruct (lookup_lt_is_Some_2 d i ltac:(lia)) as [a Ha].
      exists i, a, x. split_and!; try done.
      + rewrite <- Hts. eapply (ts_sorted_lookup d i (S i)); done || lia.
      + rewrite Hts. apply Qcle_refl.
      + right. by apply dist_zero. }
  destruct (search_selects d ts max_delta k a b)
    as (j & a' & b' & Hjk & Ha' & Hb' & Hat' & Htb' & Hearlier & Hr); try done.
  assert (dist a' ts = 0 ∨ dist b' ts = 0) as Hz'.
  { destruct (decide (j = k)) as [->|Hne].
    - assert (a' = a) as -> by congruence. by assert (b' = b) as -> by congruence.
    - destruct Hearlier as [Hb'ts _]; [lia|]. right. by apply dist_zero. }
  exists (if bool_decide (dist a' ts < dist b' ts) then a' else b').
  split_and!; [| |done].
  - case_bool_decide; by eapply list_elem_of_lookup_2.
  - pose proof (dist_nonneg a' ts). pose proof (dist_nonneg b' ts).
    case_bool_decide as Hlt; apply dist_zero_inv.
    + destruct Hz' as [?|Hz']; [done|]. rewrite Hz' in Hlt. qc_lra.
    + destruct Hz' as [Hz'|?]; [|done]. rewrite Hz' in Hlt. qc_lra.
Qed.

(** X3 at the scenario of the specification: a query at 100. *)
Lemma search_exact_hit_scenario :
  ∃ e : sample,
    e ∈ scenario ∧ timestamp e = Qc_of_Z 100 ∧
    search (PyList scenario) (Qc_of_Z 100) (Qc_of_Z 60) = Ok (coordinate e).
Proof.
  apply (search_exact_hit scenario (Qc_of_Z 100) (Qc_of_Z 60)
           (Qc_of_Z 100, Qc_of_Z 10, Qc_of_Z 20)).
  - by_compute.
  - simpl. lia.
  - apply list_elem_of_here.
  - reflexivity.
  - by_compute.
Defined.




Lemma search_pair_nonneg (a b : sample) (ts m1 m2 : Qc) :
  0 ≤ m1 → 0 ≤ m2 → search_pair a b ts m1 = search_pair a b ts m2.
Proof.
  intros H1 H2.
  destruct (decide (timestamp a ≤ ts ∧ ts ≤ timestamp b)) as [[Hat Htb]|Hn].
  - by rewrite !search_pair_brackets.
  - by rewrite !(proj2 (search_pair_None a b ts _) Hn).
Qed.

(** X6.  A non-negative [max_delta] has no effect: for every store and
    query, [search] ends the same way (the same coordinate or the same
    exception) with any two non-negative values of [max_delta]. *)
Theorem search_ignores_max_delta (st : store) (ts m1 m2 : Qc) :
  0 ≤ m1 → 0 ≤ m2 → search st ts m1 = search st ts m2.
Proof.
  intros H1 H2. unfold search. case_bool_decide; [done|].
  destruct st as [s|d]; [done|].
  induction (seq 0 (length d - 1)) as [|idx rest IH]; [done|]. simpl.
  destruct (getitem d idx) as [a|]; simpl; [|done].
  destruct (getitem d (idx + 1)) as [b|]; simpl; [|done].
  by rewrite (search_pair_nonneg a b ts m1 m2), IH.
Qed.

(** X6 at the scenario of the specification: the tolerances 10 and 60
    for the query 150. *)
Lemma search_ignores_max_delta_scenario :
  search (PyList scenario_zero) (Qc_of_Z 150) (Qc_of_Z 10)
  = search (PyList scenario_zero) (Qc_of_Z 150) (Qc_of_Z 60).
Proof.
  apply search_ignores_max_delta; by_compute.
Defined.

(** With a number for [max_delta] the loop body is the one of [search]. *)
Lemma search_pair_arg_num (a b : sample) (ts m : Qc) :
  search_pair_arg a b ts (Num m) = search_pair a b ts m.
Proof.
  unfold search_pair_arg, search_pair, gt.
  destruct (negb _); [done|]. simpl.
  by destruct (bool_decide (m < timestamp a - ts)),
              (bool_decide (m < timestamp b - ts)),
              (bool_decide (Qcabs (timestamp a - ts) < Qcabs (timestamp b - ts))).
Qed.

(** With a [str] the loop body raises [TypeError] on a bracketing pair,
    where the body of [search] with [max_delta = 0] returns. *)
Lemma search_pair_arg_text (a b : sample) (ts : Qc) (s : string) :
  match search_pair a b ts 0 with
  | None => search_pair_arg a b ts (Text s) = None
  | Some (Ok _) =>
      search_pair_arg a b ts (Text s)
      = Some (Raise (TypeError "'>' not supported between instances of 'float' and 'str'"))
  | Some (Raise _) => False
  end.
Proof.
  destruct (search_pair a b ts 0) as [r|] eqn:Hp.
  - assert (timestamp a ≤ ts ∧ ts ≤ timestamp b) as [Hat Htb].
    { destruct (decide (timestamp a ≤ ts ∧ ts ≤ timestamp b)) as [|Hn]; [done|].
      apply (proj2 (search_pair_None a b ts 0)) in Hn. congruence. }
    rewrite search_pair_brackets in Hp by (done || apply Qcle_refl).
    injection Hp as <-.
    unfold search_pair_arg.
    rewrite (bool_decide_eq_true_2 (timestamp a - ts ≤ 0)) by qc_lra.
    by rewrite (bool_decide_eq_true_2 (0 ≤ timestamp b - ts)) by qc_lra.
  - unfold search_pair_arg, search_pair in *.
    destruct (negb _); [done|]. exfalso. repeat case_match; discriminate.
Qed.

Lemma search_loop_arg_num (d : list sample) (ts m : Qc) (idxs : list nat) :
  search_loop_arg d ts (Num m) idxs = search_loop d ts m idxs.
Proof.
  induction idxs as [|idx rest IH]; [done|]. simpl.
  destruct (getitem d idx) as [a|]; simpl; [|done].
  destruct (getitem d (idx + 1)) as [b|]; simpl; [|done].
  by rewrite search_pair_arg_num, IH.
Qed.

Lemma search_loop_arg_text (d : list sample) (ts : Qc) (s : string) (idxs : list nat) :
  match search_loop d ts 0 idxs with
  | Ok _ =>
      search_loop_arg d ts (Text s) idxs
      = Raise (TypeError "'>' not supported between instances of 'float' and 'str'")
  | Raise e => search_loop_arg d ts (Text s) idxs = Raise e
  end.
Proof.
  induction idxs as [|idx rest IH]; [done|]. simpl.
  destruct (getitem d idx) as [a|]; simpl; [|done].
  destruct (getitem d (idx + 1)) as [b|]; simpl; [|done].
  pose proof (search_pair_arg_text a b ts s) as Hp.
  destruct (search_pair a b ts 0) as [[r|e]|]; [by rewrite Hp|done|by rewrite Hp].
Qed.

Lemma search_arg_num (st : store) (ts m : Qc) :
  search_arg st ts (Num m) = search st ts m.
Proof.
  unfold search_arg, search. case_bool_decide; [done|].
  destruct st as [s|d]; [done|]. apply search_loop_arg_num.
Qed.

Lemma search_arg_text (st : store) (ts : Qc) (s : string) :
  match search st ts 0 with
  | Ok _ =>
      search_arg st ts (Text s)
      = Raise (TypeError "'>' not supported between instances of 'float' and 'str'")
  | Raise e => search_arg st ts (Text s) = Raise e
  end.
Proof.
  unfold search_arg, search. case_bool_decide; [done|].
  destruct st as [s'|d]; [done|]. apply search_loop_arg_text.
Qed.

(** X7.  [main] hands [args.max_delta] to [search] as [argparse] left it.
    When [--max-delta] is absent it is a number and [search] is the
    function of the claims.  When the option is given it is a [str], and
    [search] never returns: where it would return with [max_delta = 0]
    (an adjacent pair brackets the query) the comparison
    [delta_prev > max_delta] raises [TypeError]; elsewhere it raises the
    same [ValueError] as with a number. *)
Theorem search_given_max_delta (st : store) (ts : Qc) :
  (∀ m : Qc, search_arg st ts (Num m) = search st ts m)
  ∧ (∀ s : string,
       match search st ts 0 with
       | Ok _ =>
           search_arg st ts (Text s)
           = Raise (TypeError "'>' not supported between instances of 'float' and 'str'")
       | Raise e => search_arg st ts (Text s) = Raise e
       end).
Proof.
  split; [intros m; apply search_arg_num | intros s; apply search_arg_text].
Qed.

End SearchProperties.

(** ** Building the index: [__init__], [save], [compile] and [dump] *)

Section IndexProperties.
Import GeoData.
Local Open Scope Qc_scope.

Lemma save_all_set (s : gset sample) (locations : list location) :
  save_all (PySet s) locations
  = Ok (PySet (list_to_set (stored <$> locations) ∪ s)).
Proof.
  revert s. induction locations as [|loc rest IH]; intros s; simpl.
  - by rewrite (left_id_L ∅ (∪)).
  - change (save (PySet s) loc) with (Ok (PySet ({[ stored loc ]} ∪ s))).
    simpl. rewrite IH. do 2 f_equal.
    by rewrite (assoc_L (∪)), (comm_L (∪) (list_to_set _)).
Qed.



(** X9.  [save] works on the set only and [search] on the list only.
    Once the store is compiled (by [compile], by [dump], or by an
    [__init__] that read a history) [save] raises [AttributeError]: a
    list has no [add].  On a store that is still a set of two or more
    samples [search] raises [TypeError]: a set cannot be subscripted. *)
Theorem save_needs_set_search_needs_list :
  (∀ (st : store) (loc : location),
     save (compile st) loc = Raise (AttributeError "list" "add"))
  ∧ (∀ (bytes : Type) (pickle_dumps : store → bytes)
       (locations : list location) (st : store) (out : option bytes)
       (loc : location),
       init pickle_dumps None locations = Ok (st, out) →
       save st loc = Raise (AttributeError "list" "add"))
  ∧ (∀ (s : gset sample) (ts max_delta : Qc),
       (2 ≤ size s)%nat →
       search (PySet s) ts max_delta
       = Raise (TypeError "'set' object is not subscriptable")).
Proof.
  split_and!.
  - by intros [s|l] loc.
  - intros bytes pickle_dumps locations st out loc.
    unfold init. rewrite save_all_set. by intros [= <- _].
  - intros s ts md Hs. unfold search. simpl.
    by rewrite bool_decide_eq_false_2 by lia.
Qed.

(** X9 at the history of the examples. *)
Lemma save_needs_set_search_needs_list_history :
  save Photos.index (Location 1577873300000 0 0)
  = Raise (AttributeError "list" "add").
Proof.
  apply (proj1 (proj2 save_needs_set_search_needs_list)
           store (λ st, st) Photos.history Photos.index (Some Photos.index)).
  reflexivity.
Defined.







End IndexProperties.

(** ** [JpegFile]: the memo fields and the write *)

Section JpegFileProperties.
Import piexif PyFloat JpegFile.

(** What the property [exif] returns: the object with the metadata in
    [_exif], which no later call reads from the file again. *)
Lemma exif_returns (fs : files) (self self1 : JpegFile.t) (e : exif_dict) :
  exif fs self = Ok (self1, e) →
  path self1 = path self ∧ _ts self1 = _ts self ∧ _exif self1 = Some e ∧
  (_exif self = None → fs !! path self = Some e) ∧
  ∀ fs', exif fs' self1 = Ok (self1, e).
Proof.
  unfold exif, piexif_load. destruct (_exif self) as [e0|] eqn:He0.
  - intros [= <- <-]. split_and!; try done. intros fs'. by rewrite He0.
  - destruct (fs !! path self) as [e1|]; simpl; [|done].
    intros [= <- <-]. done.
Qed.

Lemma exif_fresh (fs : files) (p : string) (e : exif_dict) :
  fs !! p = Some e →
  exif fs (__init__ p) = Ok (Build p None (Some e), e).
Proof. intros H. unfold exif, piexif_load. simpl. by rewrite H. Qed.

(** [has_geo] is the test [geotagged] on the metadata of the photo. *)
Lemma has_geo_spec (fs : files) (self self1 : JpegFile.t) (e : exif_dict) :
  exif fs self = Ok (self1, e) →
  ∃ b : bool, has_geo fs self = Ok (self1, b) ∧ (b = true ↔ geotagged e).
Proof.
  intros Hexif. unfold has_geo, geotagged. rewrite Hexif. simpl.
  destruct (e !! "GPS") as [gps|] eqn:Hgps.
  - eexists. split; [done|].
    rewrite orb_true_iff, !bool_decide_eq_true. split.
    + intros H. by exists gps.
    + by intros (gps' & [= <-] & H).
  - exists false. split; [done|]. split; [done|]. by intros (gps & ? & _).
Qed.

(** The five tags of the section [write_lat_lng] builds. *)
Lemma gps_block_dom (lat_ref lng_ref : string) (exiv_lat exiv_lng : list (Z * Z)) :
  dom (gps_block lat_ref exiv_lat lng_ref exiv_lng)
  = ({[ GPSIFD.GPSVersionID; GPSIFD.GPSLatitudeRef; GPSIFD.GPSLatitude;
        GPSIFD.GPSLongitudeRef; GPSIFD.GPSLongitude ]} : gset Z).
Proof.
  unfold gps_block. rewrite !dom_insert_L, dom_empty_L.
  by rewrite (right_id_L ∅ (∪)), !(assoc_L (∪)).
Qed.

(** [write_lat_lng] returns for finite coordinates and a photo whose
    metadata can be read, and what it writes. *)
Lemma write_lat_lng_total (fs : files) (self self1 : JpegFile.t)
    (e : exif_dict) (lat lng : spec_float) :
  bounded lat 1000 → bounded lng 1000 →
  exif fs self = Ok (self1, e) →
  ∃ (deg min : Z) (sec : spec_float) (ref : string) (a b : Z)
    (deg' min' : Z) (sec' : spec_float) (ref' : string) (a' b' : Z),
    to_deg lat ("S", "N") = Ok (deg, min, sec, ref) ∧
    exiv (deg, min, sec, ref) = Ok [(deg, 1); (min, 1); (a, b)] ∧
    to_deg lng ("W", "E") = Ok (deg', min', sec', ref') ∧
    exiv (deg', min', sec', ref') = Ok [(deg', 1); (min', 1); (a', b')] ∧
    write_lat_lng fs self lat lng
    = Ok (Build (path self) (_ts self)
            (Some (<["GPS" := gps_block ref [(deg, 1); (min, 1); (a, b)]
                                        ref' [(deg', 1); (min', 1); (a', b')]]> e)),
          <[path self :=
              <["GPS" := gps_block ref [(deg, 1); (min, 1); (a, b)]
                                   ref' [(deg', 1); (min', 1); (a', b')]]> e]> fs).
Proof.
  intros Hlat Hlng Hexif.
  destruct (to_deg_total lat ("S", "N") Hlat)
    as (deg & min & sec & ref & Hd & Hsec & _).
  destruct (to_deg_total lng ("W", "E") Hlng)
    as (deg' & min' & sec' & ref' & Hd' & Hsec' & _).
  destruct (exiv_total deg min sec ref 1023 Hsec) as (a & b & q & Hx & _).
  destruct (exiv_total deg' min' sec' ref' 1023 Hsec') as (a' & b' & q' & Hx' & _).
  destruct (exif_returns _ _ _ _ Hexif) as (Hpath & Hts & _).
  exists deg, min, sec, ref, a, b, deg', min', sec', ref', a', b'.
  split_and!; try done.
  unfold write_lat_lng. rewrite Hd, Hd'. simpl. rewrite Hx, Hx'. simpl.
  rewrite Hexif. simpl. by rewrite Hpath, Hts.
Qed.

(** X12.  For finite coordinates (below [2 ^ 1000]) and a photo whose
    metadata can be read, [write_lat_lng] returns.  The file of the
    photo then holds the metadata it had with the ["GPS"] section
    replaced: every other section is as before, and the new section
    holds the five tags version, latitude, latitude reference,
    longitude and longitude reference and no other, with the values
    [to_deg] and [change_to_rational] computed.  No other file changes,
    and the object holds what the file holds. *)
Theorem write_lat_lng_frame (fs : files) (self self1 : JpegFile.t)
    (e : exif_dict) (lat lng : spec_float) :
  bounded lat 1000 → bounded lng 1000 →
  exif fs self = Ok (self1, e) →
  ∃ (self' : JpegFile.t) (fs' : files) (e' : exif_dict) (gps : ifd),
    write_lat_lng fs self lat lng = Ok (self', fs') ∧
    fs' !! path self = Some e' ∧
    (∀ p, p ≠ path self → fs' !! p = fs !! p) ∧
    e' !! "GPS" = Some gps ∧
    (∀ s, s ≠ "GPS" → e' !! s = e !! s) ∧
    dom gps = ({[ GPSIFD.GPSVersionID; GPSIFD.GPSLatitudeRef; GPSIFD.GPSLatitude;
                  GPSIFD.GPSLongitudeRef; GPSIFD.GPSLongitude ]} : gset Z) ∧
    gps !! GPSIFD.GPSVersionID = Some (Ints [2; 0; 0; 0]) ∧
    (∃ (deg min : Z) (sec : spec_float) (ref : string) (r : list (Z * Z)),
       to_deg lat ("S", "N") = Ok (deg, min, sec, ref) ∧
       exiv (deg, min, sec, ref) = Ok r ∧
       gps !! GPSIFD.GPSLatitudeRef = Some (Str ref) ∧
       gps !! GPSIFD.GPSLatitude = Some (Rationals r)) ∧
    (∃ (deg min : Z) (sec : spec_float) (ref : string) (r : list (Z * Z)),
       to_deg lng ("W", "E") = Ok (deg, min, sec, ref) ∧
       exiv (deg, min, sec, ref) = Ok r ∧
       gps !! GPSIFD.GPSLongitudeRef = Some (Str ref) ∧
       gps !! GPSIFD.GPSLongitude = Some (Rationals r)) ∧
    path self' = path self ∧ _ts self' = _ts self ∧
    exif fs' self' = Ok (self', e').
Proof.
  intros Hlat Hlng Hexif.
  destruct (write_lat_lng_total fs self self1 e lat lng Hlat Hlng Hexif)
    as (deg & min & sec & ref & a & b & deg' & min' & sec' & ref' & a' & b'
        & Hd & Hx & Hd' & Hx' & Hw).
  eexists _, _, _, _. split; [exact Hw|].
  split_and!.
  - by rewrite lookup_insert_eq.
  - intros p Hp. by rewrite lookup_insert_ne.
  - by rewrite lookup_insert_eq.
  - intros s Hs. by rewrite lookup_insert_ne.
  - apply gps_block_dom.
  - reflexivity.
  - exists deg, min, sec, ref, [(deg, 1); (min, 1); (a, b)].
    split_and!; [exact Hd|exact Hx|reflexivity|reflexivity].
  - exists deg', min', sec', ref', [(deg', 1); (min', 1); (a', b')].
    split_and!; [exact Hd'|exact Hx'|reflexivity|reflexivity].
  - reflexivity.
  - reflexivity.
  - reflexivity.
Qed.

(** X12 at the photo without geotag and the coordinate -33.456,
    151.2093. *)
Lemma write_lat_lng_frame_plain :
  ∃ (self' : JpegFile.t) (fs' : files) (e' : exif_dict) (gps : ifd),
    write_lat_lng Photos.disk (__init__ "plain.jpg")
                  (Q2SF (-33456 # 1000)) (Q2SF (1512093 # 10000))
      = Ok (self', fs') ∧
    fs' !! path (__init__ "plain.jpg") = Some e' ∧
    (∀ p, p ≠ path (__init__ "plain.jpg") → fs' !! p = Photos.disk !! p) ∧
    e' !! "GPS" = Some gps ∧
    (∀ s, s ≠ "GPS" → e' !! s = Photos.plain !! s) ∧
    dom gps = ({[ GPSIFD.GPSVersionID; GPSIFD.GPSLatitudeRef; GPSIFD.GPSLatitude;
                  GPSIFD.GPSLongitudeRef; GPSIFD.GPSLongitude ]} : gset Z) ∧
    gps !! GPSIFD.GPSVersionID = Some (Ints [2; 0; 0; 0]) ∧
    (∃ (deg min : Z) (sec : spec_float) (ref : string) (r : list (Z * Z)),
       to_deg (Q2SF (-33456 # 1000)) ("S", "N") = Ok (deg, min, sec, ref) ∧
       exiv (deg, min, sec, ref) = Ok r ∧
       gps !! GPSIFD.GPSLatitudeRef = Some (Str ref) ∧
       gps !! GPSIFD.GPSLatitude = Some (Rationals r)) ∧
    (∃ (deg min : Z) (sec : spec_float) (ref : string) (r : list (Z * Z)),
       to_deg (Q2SF (1512093 # 10000)) ("W", "E") = Ok (deg, min, sec, ref) ∧
       exiv (deg, min, sec, ref) = Ok r ∧
       gps !! GPSIFD.GPSLongitudeRef = Some (Str ref) ∧
       gps !! GPSIFD.GPSLongitude = Some (Rationals r)) ∧
    path self' = path (__init__ "plain.jpg") ∧
    _ts self' = _ts (__init__ "plain.jpg") ∧
    exif fs' self' = Ok (self', e').
Proof.
  apply (write_lat_lng_frame Photos.disk (__init__ "plain.jpg")
           (Build "plain.jpg" None (Some Photos.plain)) Photos.plain).
  - vm_compute. split; discriminate.
  - vm_compute. split; discriminate.
  - reflexivity.
Defined.

(** X13.  A photo that [main] has written is skipped from then on: after
    a write step that ended with [Written], the file holds a geotag, and
    a further write step, on the same object or on a new [JpegFile] of
    the same path, with whatever coordinate, ends with
    [AlreadyGeotagged] and leaves the files as they are. *)
Theorem write_then_skipped (fs fs' : files) (jpg jpg' : JpegFile.t)
    (lat lng : spec_float) :
  Main.write false fs jpg lat lng = Ok (jpg', fs', Main.Written) →
  ∃ e' : exif_dict,
    fs' !! path jpg = Some e' ∧ geotagged e' ∧
    ∀ lat' lng' : spec_float,
      Main.write false fs' jpg' lat' lng' = Ok (jpg', fs', Main.AlreadyGeotagged)
      ∧ Main.write false fs' (__init__ (path jpg)) lat' lng'
        = Ok (Build (path jpg) None (Some e'), fs', Main.AlreadyGeotagged).
Proof.
  unfold Main.write. simpl.
  destruct (has_geo fs jpg) as [[jpg1 geo]|] eqn:Hgeo; simpl; [|done].
  destruct geo; [done|].
  destruct (write_lat_lng fs jpg1 lat lng) as [[jpg2 fs2]|] eqn:Hw; simpl; [|done].
  intros [= <- <-].
  destruct (write_lat_lng_replaces _ _ _ _ _ _ Hw)
    as (self1 & e & e' & lat_ref & lng_ref & exiv_lat & exiv_lng
        & Hexif & He' & Hfs' & Hcached).
  assert (path jpg1 = path jpg) as Hp1.
  { unfold has_geo in Hgeo. destruct (exif fs jpg) as [[s0 e0]|] eqn:Hexif0;
      simpl in Hgeo; [|done].
    destruct (exif_returns _ _ _ _ Hexif0) as (Hp0 & _).
    assert (s0 = jpg1) as <- by (destruct (e0 !! "GPS"); congruence). done. }
  destruct (exif_returns _ _ _ _ Hexif) as (Hp & _).
  assert (geotagged e') as Htag.
  { exists (gps_block lat_ref exiv_lat lng_ref exiv_lng).
    rewrite He'. split; [by rewrite lookup_insert_eq|]. left. by eexists. }
  exists e'. split_and!; [by rewrite Hfs', Hp, Hp1, lookup_insert_eq|done|].
  intros lat' lng'.
  assert (∀ self, exif fs2 self = Ok (self, e') →
            (has_geo fs2 self ≫= λ '(jpg, geo),
               match geo with
               | true => Ok (jpg, fs2, Main.AlreadyGeotagged)
               | false =>
                   write_lat_lng fs2 jpg lat' lng' ≫= λ '(jpg, fs),
                     Ok (jpg, fs, Main.Written)
               end) = Ok (self, fs2, Main.AlreadyGeotagged)) as Hskip.
  { intros self Hself.
    destruct (has_geo_spec _ _ _ _ Hself) as (b & -> & Hb). simpl.
    by rewrite (proj2 Hb Htag). }
  split.
  - apply Hskip. unfold exif. by rewrite Hcached.
  - assert (fs2 !! path jpg = Some e') as Hfile
      by (by rewrite Hfs', Hp, Hp1, lookup_insert_eq).
    pose proof (exif_fresh fs2 (path jpg) e' Hfile) as Hfresh.
    unfold has_geo. rewrite Hfresh. simpl.
    destruct Htag as (gps & -> & Hgps). simpl.
    destruct Hgps as [H|H].
    + by rewrite (bool_decide_eq_true_2 _ H).
    + rewrite (bool_decide_eq_true_2 (is_Some (gps !! GPSIFD.GPSLongitude)) H).
      by rewrite orb_true_r.
Qed.

(** X13 at the photo without geotag, written with the coordinate
    -33.456, 151.2093. *)
Lemma write_then_skipped_plain :
  ∃ e' : exif_dict,
    <["plain.jpg" :=
        <["GPS" := gps_block "S" [(33, 1); (27, 1); (108, 5)]
                             "E" [(151, 1); (12, 1); (837, 25)]]> Photos.plain]>
      Photos.disk !! path (__init__ "plain.jpg") = Some e' ∧
    geotagged e' ∧
    ∀ lat' lng' : spec_float,
      Main.write false
        (<["plain.jpg" :=
             <["GPS" := gps_block "S" [(33, 1); (27, 1); (108, 5)]
                                  "E" [(151, 1); (12, 1); (837, 25)]]> Photos.plain]>
           Photos.disk)
        (Build "plain.jpg" None
           (Some (<["GPS" := gps_block "S" [(33, 1); (27, 1); (108, 5)]
                                       "E" [(151, 1); (12, 1); (837, 25)]]>
                    Photos.plain)))
        lat' lng'
      = Ok (Build "plain.jpg" None
              (Some (<["GPS" := gps_block "S" [(33, 1); (27, 1); (108, 5)]
                                          "E" [(151, 1); (12, 1); (837, 25)]]>
                       Photos.plain)),
            <["plain.jpg" :=
                <["GPS" := gps_block "S" [(33, 1); (27, 1); (108, 5)]
                                     "E" [(151, 1); (12, 1); (837, 25)]]> Photos.plain]>
              Photos.disk,
            Main.AlreadyGeotagged)
      ∧ Main.write false
          (<["plain.jpg" :=
               <["GPS" := gps_block "S" [(33, 1); (27, 1); (108, 5)]
                                    "E" [(151, 1); (12, 1); (837, 25)]]> Photos.plain]>
             Photos.disk)
          (__init__ (path (__init__ "plain.jpg"))) lat' lng'
        = Ok (Build (path (__init__ "plain.jpg")) None (Some e'),
              <["plain.jpg" :=
                  <["GPS" := gps_block "S" [(33, 1); (27, 1); (108, 5)]
                                       "E" [(151, 1); (12, 1); (837, 25)]]> Photos.plain]>
                Photos.disk,
              Main.AlreadyGeotagged).
Proof.
  apply (write_then_skipped Photos.disk _ (__init__ "plain.jpg") _
           (Q2SF (-33456 # 1000)) (Q2SF (1512093 # 10000))).
  vm_compute. reflexivity.
Defined.

(** X14.  Negating a coordinate changes the hemisphere letter and
    nothing else: [to_deg(-value, (neg, pos))] is
    [to_deg(value, (pos, neg))], for every float (for a NaN and the
    infinities both raise the same exception, and both zeros get the
    empty letter). *)
Theorem to_deg_negation (value : spec_float) (neg pos : string) :
  to_deg (SFopp value) (neg, pos) = to_deg value (pos, neg).
Proof.
  unfold to_deg.
  assert (SFabs (SFopp value) = SFabs value) as -> by (by destruct value).
  assert ((if float_lt (SFopp value) (S754_zero false) then (neg, pos).1
           else if float_lt (S754_zero false) (SFopp value) then (neg, pos).2
           else "")
          = (if float_lt value (S754_zero false) then (pos, neg).1
             else if float_lt (S754_zero false) value then (pos, neg).2
             else "")) as ->; [|done].
  by destruct value as [[]|[]| |[] m e].
Qed.

(** X15.  A photo whose metadata has no latitude and no longitude tag is
    not skipped, also when it has a ["GPS"] section with other tags: for
    finite coordinates the write step of [main] ends with [Written], and
    the new ["GPS"] section holds no tag besides the five that
    [write_lat_lng] sets.  An altitude the photo had is gone. *)
Theorem write_replaces_partial_gps (fs : files) (jpg jpg1 : JpegFile.t)
    (e : exif_dict) (lat lng : spec_float) :
  exif fs jpg = Ok (jpg1, e) → ¬ geotagged e →
  bounded lat 1000 → bounded lng 1000 →
  ∃ (jpg' : JpegFile.t) (fs' : files) (e' : exif_dict) (gps : ifd),
    Main.write false fs jpg lat lng = Ok (jpg', fs', Main.Written) ∧
    fs' !! path jpg = Some e' ∧ e' !! "GPS" = Some gps ∧ geotagged e' ∧
    ∀ tag : Z,
      tag ∉ [GPSIFD.GPSVersionID; GPSIFD.GPSLatitudeRef; GPSIFD.GPSLatitude;
             GPSIFD.GPSLongitudeRef; GPSIFD.GPSLongitude] →
      gps !! tag = None.
Proof.
  intros Hexif Hno Hlat Hlng.
  destruct (has_geo_spec _ _ _ _ Hexif) as (b & Hgeo & Hb).
  destruct b; [by destruct Hno; apply Hb|].
  destruct (exif_returns _ _ _ _ Hexif) as (Hpath & _ & _ & _ & Hexif1).
  destruct (write_lat_lng_total fs jpg1 jpg1 e lat lng Hlat Hlng (Hexif1 fs))
    as (deg & min & sec & ref & a & b & deg' & min' & sec' & ref' & a' & b'
        & _ & _ & _ & _ & Hw).
  eexists _, _, _, _. split_and!.
  - unfold Main.write. simpl. rewrite Hgeo. simpl. rewrite Hw. reflexivity.
  - by rewrite Hpath, lookup_insert_eq.
  - by rewrite lookup_insert_eq.
  - eexists. split; [by rewrite lookup_insert_eq|]. left. by eexists.
  - intros tag Htag. apply not_elem_of_dom. rewrite gps_block_dom.
    intros Hin. apply Htag.
    rewrite !elem_of_union, !elem_of_singleton in Hin.
    rewrite !elem_of_cons. intuition.
Qed.

End JpegFileProperties.

(** ** [JpegFile]: the timestamp *)

Section TimestampProperties.
Import piexif PyFloat JpegFile.
Context (strptime : string → option Z) (mktime : Z → Z).

(** [_get_timestmap] returns the object that [self.exif] left. *)
Lemma get_timestmap_returns (fs : files) (self self1 : JpegFile.t) (ts : Z) :
  _get_timestmap strptime mktime fs self = Ok (self1, ts) →
  ∃ e, exif fs self = Ok (self1, e).
Proof.
  unfold _get_timestmap. destruct (exif fs self) as [[s e]|]; simpl; [|done].
  destruct (read_datetime strptime e ExifIFD.DateTimeOriginal) as [[o|]|];
    simpl; [| |done].
  all: destruct (read_datetime strptime e ExifIFD.DateTimeDigitized) as [[d|]|];
    simpl; try done.
  all: repeat case_bool_decide; try done.
  all: intros [= <- <-]; eauto.
Qed.

(** X16.  The properties [exif] and [timestamp] read the file once.  After
    an access that returned, the object holds the value, and every later
    access returns it without reading anything: the files may have
    changed or be gone. *)
Theorem timestamp_memoized :
  (∀ (fs : files) (self self' : JpegFile.t) (e : exif_dict),
     exif fs self = Ok (self', e) →
     path self' = path self ∧
     ∀ fs' : files, exif fs' self' = Ok (self', e))
  ∧ (∀ (fs : files) (self self' : JpegFile.t) (ts : Z),
       timestamp strptime mktime fs self = Ok (self', ts) →
       path self' = path self ∧ _ts self' = Some ts ∧
       ∀ fs' : files, timestamp strptime mktime fs' self' = Ok (self', ts)).
Proof.
  split.
  - intros fs self self' e Hexif.
    by destruct (exif_returns _ _ _ _ Hexif) as (? & _ & _ & _ & ?).
  - intros fs self self' ts. unfold timestamp.
    destruct (_ts self) as [t|] eqn:Hts.
    + intros [= <- <-]. split_and!; try done. intros fs'. by rewrite Hts.
    + destruct (_get_timestmap strptime mktime fs self) as [[s1 t1]|] eqn:Hget;
        simpl; [|done].
      intros [= <- <-]. simpl.
      destruct (get_timestmap_returns _ _ _ _ Hget) as [e Hexif].
      by destruct (exif_returns _ _ _ _ Hexif) as (? & _).
Qed.

(** [read_datetime] looks at one tag of the ["Exif"] section. *)
Lemma read_datetime_field (e e' : exif_dict) (dt_tag : Z) :
  exif_field e dt_tag = exif_field e' dt_tag →
  read_datetime strptime e dt_tag = read_datetime strptime e' dt_tag.
Proof. unfold exif_field, read_datetime. by intros ->. Qed.

(** X17.  [_get_timestmap] depends on the two tags [DateTimeOriginal] and
    [DateTimeDigitized] of the ["Exif"] section and on nothing else of the
    photo: two photos that agree on these two tags get the same
    timestamp, or raise the same exception.  The tags
    [OffsetTimeOriginal] and [OffsetTimeDigitized] that the method names
    are never read, and a geotag written by [write_lat_lng] does not
    change the timestamp. *)
Theorem get_timestamp_reads_two_tags
    (fs fs' : files) (self self1 self' self1' : JpegFile.t) (e e' : exif_dict) :
  exif fs self = Ok (self1, e) → exif fs' self' = Ok (self1', e') →
  exif_field e ExifIFD.DateTimeOriginal = exif_field e' ExifIFD.DateTimeOriginal →
  exif_field e ExifIFD.DateTimeDigitized = exif_field e' ExifIFD.DateTimeDigitized →
  match _get_timestmap strptime mktime fs self,
        _get_timestmap strptime mktime fs' self' with
  | Ok (_, ts), Ok (_, ts') => ts = ts'
  | Raise err, Raise err' => err = err'
  | _, _ => False
  end.
Proof.
  intros Hexif Hexif' Ho Hd. unfold _get_timestmap.
  rewrite Hexif, Hexif'. simpl.
  rewrite (read_datetime_field e e' _ Ho), (read_datetime_field e e' _ Hd).
  destruct (read_datetime strptime e' ExifIFD.DateTimeOriginal) as [[o|]|];
    simpl; [| |done].
  all: destruct (read_datetime strptime e' ExifIFD.DateTimeDigitized) as [[d|]|];
    simpl; try done.
  by case_bool_decide.
Qed.

(** X18.  A [DateTimeOriginal] that is there and cannot be read ends
    [_get_timestmap] with the error of the reading, whatever
    [DateTimeDigitized] holds: bytes that are not ASCII raise
    [UnicodeDecodeError], and a string that [strptime] rejects raises its
    [ValueError].  Only [KeyError] (a missing tag) is caught. *)
Theorem get_timestamp_bad_original
    (fs : files) (self self' : JpegFile.t) (e : exif_dict) (s : string) :
  exif fs self = Ok (self', e) →
  exif_field e ExifIFD.DateTimeOriginal = Some (Bytes s) →
  (PyStr.is_ascii s = false →
   _get_timestmap strptime mktime fs self = Raise UnicodeDecodeError)
  ∧ (PyStr.is_ascii s = true → PyStr.find s " 24:" ≤ 0 → strptime s = None →
     _get_timestmap strptime mktime fs self
     = Raise (ValueError "time data does not match format")).
Proof.
  intros Hexif Hf. split.
  - intros Ha.
    assert (read_datetime strptime e ExifIFD.DateTimeOriginal
            = Raise UnicodeDecodeError) as Hr.
    { unfold read_datetime, exif_field in *. rewrite Hf. simpl. by rewrite Ha. }
    unfold _get_timestmap. rewrite Hexif. simpl. by rewrite Hr.
  - intros Ha H24 Hp.
    assert (read_datetime strptime e ExifIFD.DateTimeOriginal
            = Raise (ValueError "time data does not match format")) as Hr.
    { unfold read_datetime, exif_field in *. rewrite Hf. simpl. rewrite Ha. simpl.
      destruct (0 <? PyStr.find s " 24:") eqn:Hlt; [apply Z.ltb_lt in Hlt; lia|].
      simpl. unfold datetime_strptime. by rewrite Hp. }
    unfold _get_timestmap. rewrite Hexif. simpl. by rewrite Hr.
Qed.

End TimestampProperties.

Section TimestampExamples2.
Import piexif PyFloat JpegFile.

(** X16 at the photo of the examples: after the first access the
    timestamp is returned for any files. *)
Lemma timestamp_memoized_plain :
  path (Build "plain.jpg" (Some 1577872800) (Some Photos.plain))
    = path (__init__ "plain.jpg") ∧
  _ts (Build "plain.jpg" (Some 1577872800) (Some Photos.plain)) = Some 1577872800 ∧
  ∀ fs' : files,
    timestamp Photos.strptime Photos.mktime fs'
      (Build "plain.jpg" (Some 1577872800) (Some Photos.plain))
    = Ok (Build "plain.jpg" (Some 1577872800) (Some Photos.plain), 1577872800).
Proof.
  apply (proj2 (timestamp_memoized Photos.strptime Photos.mktime)
           Photos.disk (__init__ "plain.jpg")).
  vm_compute. reflexivity.
Defined.

End TimestampExamples2.

Section JpegFileExamples.
Import piexif PyFloat JpegFile.

(** X17 at the photo of the examples and the same photo with a time zone
    offset and a geotag. *)
Lemma get_timestamp_reads_two_tags_offset :
  match _get_timestmap Photos.strptime Photos.mktime
          Photos.disk (__init__ "plain.jpg"),
        _get_timestmap Photos.strptime Photos.mktime
          (<["plain.jpg" := Photos.plain_offset]> Photos.disk) (__init__ "plain.jpg") with
  | Ok (_, ts), Ok (_, ts') => ts = ts'
  | Raise err, Raise err' => err = err'
  | _, _ => False
  end.
Proof.
  apply (get_timestamp_reads_two_tags Photos.strptime Photos.mktime
           Photos.disk (<["plain.jpg" := Photos.plain_offset]> Photos.disk)
           (__init__ "plain.jpg") (Build "plain.jpg" None (Some Photos.plain))
           (__init__ "plain.jpg") (Build "plain.jpg" None (Some Photos.plain_offset))
           Photos.plain Photos.plain_offset).
  - reflexivity.
  - reflexivity.
  - reflexivity.
  - reflexivity.
Defined.

(** X18 at a photo whose original timestamp is the string "yesterday" and
    whose digitized timestamp is a date. *)
Lemma get_timestamp_bad_original_yesterday :
  (PyStr.is_ascii "yesterday" = false →
   _get_timestmap Photos.strptime Photos.mktime
     (<["altitude.jpg" := Photos.altitude_only]> Photos.disk) (__init__ "altitude.jpg")
   = Raise UnicodeDecodeError)
  ∧ (PyStr.is_ascii "yesterday" = true → PyStr.find "yesterday" " 24:" ≤ 0 →
     Photos.strptime "yesterday" = None →
     _get_timestmap Photos.strptime Photos.mktime
       (<["altitude.jpg" := Photos.altitude_only]> Photos.disk) (__init__ "altitude.jpg")
     = Raise (ValueError "time data does not match format")).
Proof.
  apply (get_timestamp_bad_original Photos.strptime Photos.mktime
           (<["altitude.jpg" := Photos.altitude_only]> Photos.disk)
           (__init__ "altitude.jpg")
           (Build "altitude.jpg" None (Some Photos.altitude_only))
           Photos.altitude_only "yesterday").
  - reflexivity.
  - reflexivity.
Defined.

(** X15 at a photo whose ["GPS"] section holds an altitude only. *)
Lemma write_replaces_partial_gps_altitude :
  ∃ (jpg' : JpegFile.t) (fs' : files) (e' : exif_dict) (gps : ifd),
    Main.write false (<["altitude.jpg" := Photos.altitude_only]> Photos.disk)
      (__init__ "altitude.jpg") (Q2SF (-33456 # 1000)) (Q2SF (1512093 # 10000))
    = Ok (jpg', fs', Main.Written) ∧
    fs' !! path (__init__ "altitude.jpg") = Some e' ∧
    e' !! "GPS" = Some gps ∧ geotagged e' ∧
    ∀ tag : Z,
      tag ∉ [GPSIFD.GPSVersionID; GPSIFD.GPSLatitudeRef; GPSIFD.GPSLatitude;
             GPSIFD.GPSLongitudeRef; GPSIFD.GPSLongitude] →
      gps !! tag = None.
Proof.
  apply (write_replaces_partial_gps
           (<["altitude.jpg" := Photos.altitude_only]> Photos.disk)
           (__init__ "altitude.jpg")
           (Build "altitude.jpg" None (Some Photos.altitude_only))
           Photos.altitude_only).
  - reflexivity.
  - intros (gps & Hgps & Htag).
    assert (gps = <[6 := Rationals [(120, 1)]]> ∅) as -> by (by vm_compute in Hgps; injection Hgps).
    destruct Htag as [[v Hv]|[v Hv]]; vm_compute in Hv; discriminate Hv.
  - vm_compute. split; discriminate.
  - vm_compute. split; discriminate.
Defined.

End JpegFileExamples.

(** ** The loop of [main] *)

Section RunProperties.
Import piexif PyFloat JpegFile Main.
Context (strptime : string → option Z) (mktime : Z → Z).

(** The first access to [timestamp] on a new [JpegFile] reads the file. *)
Lemma timestamp_fresh (fs : files) (p : string) (jpg1 : JpegFile.t) (ts : Z) :
  timestamp strptime mktime fs (__init__ p) = Ok (jpg1, ts) →
  ∃ e, fs !! p = Some e ∧ jpg1 = Build p (Some ts) (Some e) ∧
       _get_timestmap strptime mktime fs (__init__ p)
       = Ok (Build p None (Some e), ts).
Proof.
  unfold timestamp. simpl.
  destruct (_get_timestmap strptime mktime fs (__init__ p)) as [[s1 t1]|] eqn:Hget;
    simpl; [|done].
  intros [= <- <-].
  destruct (get_timestmap_returns _ _ _ _ _ _ Hget) as [e Hexif].
  destruct (exif_returns _ _ _ _ Hexif) as (Hp & Ht & He & Hfile & _).
  exists e. destruct s1 as [p1 t1' e1]. simpl in *. subst.
  split_and!; [by apply Hfile|done|done].
Qed.

(** Two files that hold the same ["Exif"] section give the same
    timestamp. *)
Lemma timestamp_agree (fs fsF : files) (p : string) (e eF : exif_dict) (ts : Z) :
  fs !! p = Some e → fsF !! p = Some eF → eF !! "Exif" = e !! "Exif" →
  timestamp strptime mktime fs (__init__ p) = Ok (Build p (Some ts) (Some e), ts) →
  timestamp strptime mktime fsF (__init__ p) = Ok (Build p (Some ts) (Some eF), ts).
Proof.
  intros Hfs HfsF Hsame. unfold timestamp, _get_timestmap. simpl.
  rewrite (exif_fresh fs p e Hfs), (exif_fresh fsF p eF HfsF). simpl.
  assert (∀ tag, read_datetime strptime eF tag = read_datetime strptime e tag) as Hread.
  { intros tag. apply read_datetime_field. unfold exif_field. by rewrite Hsame. }
  rewrite !Hread.
  destruct (read_datetime strptime e ExifIFD.DateTimeOriginal) as [[o|]|];
    simpl; [| |done].
  all: destruct (read_datetime strptime e ExifIFD.DateTimeDigitized) as [[d|]|];
    simpl; try done.
  all: repeat case_bool_decide; simpl; try done.
  all: by intros [= <-].
Qed.

(** One turn of the loop that returns: the photo could be read, its
    timestamp and a position were found, and the file is as before or
    has the ["GPS"] section replaced. *)
Lemma photo_arg_step (dry : bool) (offset : Z) (md : GeoData.arg)
    (geo : GeoData.store) (fs fs' : files) (p : string)
    (jpg' : JpegFile.t) (out : write_outcome) :
  photo_arg strptime mktime dry offset md geo fs (__init__ p) = Ok (jpg', fs', out) →
  ∃ (e : exif_dict) (ts : Z) (c : Qc * Qc),
    fs !! p = Some e ∧
    timestamp strptime mktime fs (__init__ p) = Ok (Build p (Some ts) (Some e), ts) ∧
    GeoData.search_arg geo (Qc_of_Z (ts + offset)) md = Ok c ∧
    ((dry = true ∧ out = DryRun ∧ fs' = fs)
     ∨ (dry = false ∧ out = AlreadyGeotagged ∧ fs' = fs ∧ geotagged e)
     ∨ (dry = false ∧ out = Written ∧ ¬ geotagged e ∧
        ∃ gps, fs' = <[p := <["GPS" := gps]> e]> fs
               ∧ geotagged (<["GPS" := gps]> e))).
Proof.
  unfold photo_arg.
  destruct (timestamp strptime mktime fs (__init__ p)) as [[jpg1 ts]|] eqn:Hts;
    simpl; [|done].
  destruct (timestamp_fresh _ _ _ _ Hts) as (e & Hfile & -> & _).
  destruct (GeoData.search_arg geo (Qc_of_Z (ts + offset)) md) as [[lat lng]|] eqn:Hs;
    simpl; [|done].
  intros Hw. exists e, ts, (lat, lng). split_and!; try done.
  assert (exif fs (Build p (Some ts) (Some e)) = Ok (Build p (Some ts) (Some e), e))
    as Hexif by done.
  unfold write in Hw. destruct dry; simpl in Hw.
  { left. by injection Hw as <- <- <-. }
  right.
  destruct (has_geo_spec _ _ _ _ Hexif) as (b & Hgeo & Hb).
  rewrite Hgeo in Hw. simpl in Hw. destruct b.
  - left. injection Hw as <- <- <-. split_and!; try done. by apply Hb.
  - right.
    destruct (write_lat_lng fs _ _ _) as [[jpg2 fs2]|] eqn:Hwrite; simpl in Hw; [|done].
    injection Hw as <- <- <-.
    destruct (write_lat_lng_replaces _ _ _ _ _ _ Hwrite)
      as (self1 & e0 & e' & lat_ref & lng_ref & exiv_lat & exiv_lng
          & Hexif0 & He' & Hfs' & _).
    rewrite Hexif in Hexif0. injection Hexif0 as <- <-. simpl in Hfs'.
    split_and!; try done.
    + intros Htag. apply Hb in Htag. discriminate Htag.
    + exists (gps_block lat_ref exiv_lat lng_ref exiv_lng). subst e'.
      split; [done|]. eexists. split; [by rewrite lookup_insert_eq|].
      left. by eexists.
Qed.

(** What a run leaves of each file. *)
Lemma run_frame_aux (dry : bool) (offset : Z) (md : GeoData.arg)
    (geo : GeoData.store) (paths : list string) :
  ∀ (fs fs' : files) (outs : list write_outcome) (err : option exn),
    run strptime mktime dry offset md geo fs paths = (fs', outs, err) →
    ∀ p : string,
      (p ∉ paths → fs' !! p = fs !! p) ∧
      (fs !! p = None → fs' !! p = None) ∧
      (∀ e, fs !! p = Some e →
         ∃ e', fs' !! p = Some e' ∧
               (∀ s, s ≠ "GPS" → e' !! s = e !! s) ∧
               (e' = e ∨ (¬ geotagged e ∧ geotagged e' ∧ p ∈ paths ∧ dry = false))).
Proof.
  induction paths as [|p0 rest IH]; intros fs fs' outs err; simpl.
  - intros [= <- <- <-] p. split_and!; try done. intros e He. exists e. auto.
  - destruct (photo_arg strptime mktime dry offset md geo fs (__init__ p0))
      as [[[j f1] o]|] eqn:Hstep.
    2:{ intros [= <- <- <-] p. split_and!; try done. intros x Hx. exists x. auto. }
    destruct (run strptime mktime dry offset md geo f1 rest)
      as [[f2 outs'] err'] eqn:Hrun.
    intros [= <- <- <-] p.
    destruct (IH _ _ _ _ Hrun p) as (Hout & Hnone & Hsome).
    destruct (photo_arg_step _ _ _ _ _ _ _ _ _ Hstep)
      as (e0 & ts & c & Hfile & _ & _ & Hcases).
    assert (f1 = fs ∨ ¬ geotagged e0 ∧ dry = false ∧
            ∃ gps, f1 = <[p0 := <["GPS" := gps]> e0]> fs
                   ∧ geotagged (<["GPS" := gps]> e0)) as [->|(Hno & Hdry & gps & -> & Htag)].
    { destruct Hcases as [(_ & _ & ->)|[(_ & _ & -> & _)|(? & _ & ? & ?)]]; auto. }
    + split_and!.
      * intros Hp. apply Hout. intros Hin. apply Hp. by right.
      * done.
      * intros e He. destruct (Hsome e He) as (e' & ? & ? & [?|(? & ? & ? & ?)]).
        -- exists e'. auto.
        -- exists e'. split_and!; try done. right. split_and!; try done. by right.
    + destruct (decide (p = p0)) as [->|Hne].
      * split_and!.
        -- intros Hp. destruct Hp. by left.
        -- intros Hn. congruence.
        -- intros e He. assert (e = e0) as -> by congruence.
           destruct (Hsome (<["GPS" := gps]> e0)) as (e' & He' & Hsec & Hor);
             [by rewrite lookup_insert_eq|].
           exists e'. split_and!; [done| |].
           ++ intros s Hs. rewrite (Hsec s Hs). by rewrite lookup_insert_ne.
           ++ right. destruct Hor as [->|(Hno' & _)]; [|by destruct Hno'].
              split_and!; try done. by left.
      * rewrite lookup_insert_ne in Hnone, Hsome, Hout by done.
        split_and!.
        -- intros Hp. apply Hout. intros Hin. apply Hp. by right.
        -- done.
        -- intros e He. destruct (Hsome e He) as (e' & ? & ? & [?|(? & ? & ? & ?)]).
           ++ exists e'. auto.
           ++ exists e'. split_and!; try done. right. split_and!; try done. by right.
Qed.

(** With [--dry_run] a run leaves the files as they are. *)
Lemma run_dry_files (offset : Z) (md : GeoData.arg) (geo : GeoData.store)
    (paths : list string) (fs fs' : files) (outs : list write_outcome)
    (err : option exn) :
  run strptime mktime true offset md geo fs paths = (fs', outs, err) →
  fs' = fs ∧ Forall (λ o, o = DryRun) outs.
Proof.
  revert fs fs' outs err. induction paths as [|p0 rest IH];
    intros fs fs' outs err; simpl.
  - by intros [= <- <- <-].
  - destruct (photo_arg strptime mktime true offset md geo fs (__init__ p0))
      as [[[j f1] o]|] eqn:Hstep; [|by intros [= <- <- <-]].
    destruct (run strptime mktime true offset md geo f1 rest)
      as [[f2 outs'] err'] eqn:Hrun.
    intros [= <- <- <-].
    destruct (photo_arg_step _ _ _ _ _ _ _ _ _ Hstep)
      as (_ & _ & _ & _ & _ & _ & [(_ & -> & ->)|[(? & _)|(? & _)]]); try done.
    destruct (IH _ _ _ _ Hrun) as [-> Hall]. split; [done|]. by constructor.
Qed.

(** After a run without exception every photo of the list has a
    geotag. *)
Lemma run_tags (offset : Z) (md : GeoData.arg) (geo : GeoData.store)
    (paths : list string) :
  ∀ (fs fs' : files) (outs : list write_outcome),
    run strptime mktime false offset md geo fs paths = (fs', outs, None) →
    ∀ p, p ∈ paths → ∃ e', fs' !! p = Some e' ∧ geotagged e'.
Proof.
  induction paths as [|p0 rest IH]; intros fs fs' outs; simpl.
  - intros _ p Hp. by apply elem_of_nil in Hp.
  - destruct (photo_arg strptime mktime false offset md geo fs (__init__ p0))
      as [[[j f1] o]|] eqn:Hstep; [|done].
    destruct (run strptime mktime false offset md geo f1 rest)
      as [[f2 outs'] err'] eqn:Hrun.
    intros [= <- <- ->] p Hp.
    destruct (decide (p ∈ rest)) as [Hin|Hnin]; [by eapply IH|].
    apply elem_of_cons in Hp as [->|?]; [|done].
    destruct (photo_arg_step _ _ _ _ _ _ _ _ _ Hstep)
      as (e0 & ts & c & Hfile & _ & _ & Hcases).
    assert (∃ e1, f1 !! p0 = Some e1 ∧ geotagged e1) as (e1 & He1 & Htag).
    { destruct Hcases as [(? & _)|[(_ & _ & -> & ?)|(_ & _ & _ & gps & -> & ?)]];
        [done|by exists e0|].
      eexists. split; [by rewrite lookup_insert_eq|done]. }
    destruct (run_frame_aux _ _ _ _ _ _ _ _ _ Hrun p0) as (_ & _ & Hsome).
    destruct (Hsome e1 He1) as (e' & He' & _ & [->|(Hno & _)]); [|by destruct Hno].
    by exists e1.
Qed.

(** A run over photos that all have a geotag, on files that hold the
    ["Exif"] sections of the files of a run without exception: every
    photo is skipped. *)
Lemma run_again (offset : Z) (md : GeoData.arg) (geo : GeoData.store)
    (paths : list string) :
  ∀ (fs fs' fsF : files) (outs : list write_outcome),
    run strptime mktime false offset md geo fs paths = (fs', outs, None) →
    (∀ p e, fs !! p = Some e →
       ∃ eF, fsF !! p = Some eF ∧ eF !! "Exif" = e !! "Exif") →
    (∀ p, p ∈ paths → ∃ eF, fsF !! p = Some eF ∧ geotagged eF) →
    run strptime mktime false offset md geo fsF paths
    = (fsF, replicate (length paths) AlreadyGeotagged, None).
Proof.
  induction paths as [|p0 rest IH]; intros fs fs' fsF outs; simpl; [done|].
  destruct (photo_arg strptime mktime false offset md geo fs (__init__ p0))
    as [[[j f1] o]|] eqn:Hstep; [|done].
  destruct (run strptime mktime false offset md geo f1 rest)
    as [[f2 outs'] err'] eqn:Hrun.
  intros [= <- <- ->] Hagree Htags.
  destruct (photo_arg_step _ _ _ _ _ _ _ _ _ Hstep)
    as (e0 & ts & c & Hfile & Hts & Hsearch & Hcases).
  destruct (Hagree p0 e0 Hfile) as (eF & HfileF & Hexif).
  destruct (Htags p0) as (eF' & HfileF' & Htag); [by left|].
  assert (eF' = eF) as -> by congruence.
  assert (photo_arg strptime mktime false offset md geo fsF (__init__ p0)
          = Ok (Build p0 (Some ts) (Some eF), fsF, AlreadyGeotagged)) as ->.
  { unfold photo_arg.
    rewrite (timestamp_agree fs fsF p0 e0 eF ts Hfile HfileF Hexif Hts). simpl.
    rewrite Hsearch. destruct c as [lat lng]. simpl.
    unfold write. simpl.
    destruct (has_geo_spec fsF (Build p0 (Some ts) (Some eF))
                (Build p0 (Some ts) (Some eF)) eF eq_refl) as (b & -> & Hb).
    simpl. by rewrite (proj2 Hb Htag). }
  rewrite (IH f1 f2 fsF outs' Hrun); [done| |].
  - intros p e He.
    assert (f1 = fs ∨ ∃ gps, f1 = <[p0 := <["GPS" := gps]> e0]> fs) as [->|[gps ->]].
    { destruct Hcases as [(? & _)|[(_ & _ & -> & _)|(_ & _ & _ & gps & -> & _)]];
        [done|by left|right; by exists gps]. }
    + by apply Hagree.
    + destruct (decide (p = p0)) as [->|Hne].
      * rewrite lookup_insert_eq in He. injection He as <-.
        exists eF. split; [done|]. by rewrite lookup_insert_ne.
      * rewrite lookup_insert_ne in He by done. by apply Hagree.
  - intros p Hp. apply Htags. by right.
Qed.

(** X19.  The loop of [main] changes nothing but geotags.  Whatever the
    arguments and however the run ends: a file that is not in the list
    is as before; no file appears or disappears; in every file all
    sections other than ["GPS"] are as before; and a file is as before
    altogether unless it had no geotag, is in the list, the run was no
    dry run, and it has a geotag now.  In particular a photo that had a
    geotag keeps its metadata. *)
Theorem run_frame (dry : bool) (offset : Z) (md : GeoData.arg)
    (geo : GeoData.store) (paths : list string) (fs : files) :
  ∃ (fs' : files) (outs : list write_outcome) (err : option exn),
    run strptime mktime dry offset md geo fs paths = (fs', outs, err) ∧
    (dry = true → fs' = fs) ∧
    ∀ p : string,
      (p ∉ paths → fs' !! p = fs !! p) ∧
      (fs !! p = None → fs' !! p = None) ∧
      (∀ e, fs !! p = Some e →
         ∃ e', fs' !! p = Some e' ∧
               (∀ s, s ≠ "GPS" → e' !! s = e !! s) ∧
               (geotagged e → e' = e) ∧
               (e' ≠ e → ¬ geotagged e ∧ geotagged e' ∧ p ∈ paths ∧ dry = false)).
Proof.
  destruct (run strptime mktime dry offset md geo fs paths)
    as [[fs' outs] err] eqn:Hrun.
  exists fs', outs, err. split; [done|]. split.
  - intros ->. by destruct (run_dry_files _ _ _ _ _ _ _ _ Hrun).
  - intros p. destruct (run_frame_aux _ _ _ _ _ _ _ _ _ Hrun p) as (? & ? & Hsome).
    split_and!; try done.
    intros e He. destruct (Hsome e He) as (e' & ? & ? & Hor).
    exists e'. split_and!; try done.
    + intros Htag. by destruct Hor as [?|(Hno & _)].
    + intros Hne. by destruct Hor as [?|?].
Qed.

(** X20.  The loop goes through the photos in order and stops at the
    first exception: a run over [l1 ++ l2] is the run over [l1] followed,
    when that ended without exception, by the run over [l2] on the files
    the first left.  A photo that raises (no timestamp, no position, a
    file that cannot be read) ends the run there: the photos before it
    stay as they were written and those after it are not looked at. *)
Theorem run_app (dry : bool) (offset : Z) (md : GeoData.arg)
    (geo : GeoData.store) (fs : files) (l1 l2 : list string) :
  run strptime mktime dry offset md geo fs (l1 ++ l2)
  = (let '(fs1, outs1, err1) := run strptime mktime dry offset md geo fs l1 in
     match err1 with
     | Some e => (fs1, outs1, Some e)
     | None =>
         let '(fs2, outs2, err2) := run strptime mktime dry offset md geo fs1 l2 in
         (fs2, outs1 ++ outs2, err2)
     end)
  ∧ ∀ (p : string) (fs1 : files) (outs1 : list write_outcome) (e : exn),
      run strptime mktime dry offset md geo fs l1 = (fs1, outs1, None) →
      photo_arg strptime mktime dry offset md geo fs1 (__init__ p) = Raise e →
      run strptime mktime dry offset md geo fs (l1 ++ p :: l2) = (fs1, outs1, Some e).
Proof.
  assert (∀ l2 fs,
    run strptime mktime dry offset md geo fs (l1 ++ l2)
    = (let '(fs1, outs1, err1) := run strptime mktime dry offset md geo fs l1 in
       match err1 with
       | Some e => (fs1, outs1, Some e)
       | None =>
           let '(fs2, outs2, err2) := run strptime mktime dry offset md geo fs1 l2 in
           (fs2, outs1 ++ outs2, err2)
       end)) as Happ.
  { clear fs l2. induction l1 as [|p0 rest IH]; intros l2 fs; simpl.
    - by destruct (run strptime mktime dry offset md geo fs l2) as [[??]?].
    - destruct (photo_arg strptime mktime dry offset md geo fs (__init__ p0))
        as [[[j f1] o]|]; [|done].
      rewrite IH.
      destruct (run strptime mktime dry offset md geo f1 rest) as [[f2 outs'] [e|]];
        [done|].
      by destruct (run strptime mktime dry offset md geo f2 l2) as [[??]?]. }
  split; [apply Happ|].
  intros p fs1 outs1 e Hrun Hraise. rewrite Happ, Hrun. simpl. rewrite Hraise.
  by rewrite (right_id_L [] (++)).
Qed.

(** X21.  A second run changes nothing.  After a run without
    [--dry_run] that ended without exception, every photo of the list
    has a geotag, and a run over the same list on the files it left
    skips every photo and leaves the files as they are. *)
Theorem run_twice (offset : Z) (md : GeoData.arg) (geo : GeoData.store)
    (paths : list string) (fs fs' : files) (outs : list write_outcome) :
  run strptime mktime false offset md geo fs paths = (fs', outs, None) →
  (∀ p, p ∈ paths → ∃ e', fs' !! p = Some e' ∧ geotagged e')
  ∧ run strptime mktime false offset md geo fs' paths
    = (fs', replicate (length paths) AlreadyGeotagged, None).
Proof.
  intros Hrun. split; [by eapply run_tags|].
  apply (run_again offset md geo paths fs fs' fs' outs Hrun).
  - intros p e He.
    destruct (run_frame_aux _ _ _ _ _ _ _ _ _ Hrun p) as (_ & _ & Hsome).
    destruct (Hsome e He) as (e' & He' & Hsec & _).
    exists e'. split; [done|]. by apply Hsec.
  - by eapply run_tags.
Qed.

End RunProperties.

(** ** A photo from its file to its geotag, and [main] *)

Section MainProperties.
Import piexif PyFloat JpegFile Main.
Context (strptime : string → option Z) (mktime : Z → Z).


(** A [str] for [max_delta] never lets [search] return. *)
Lemma search_arg_text_raises (st : GeoData.store) (ts : Qc) (s : string) :
  ∃ e, GeoData.search_arg st ts (GeoData.Text s) = Raise e.
Proof.
  pose proof (search_arg_text st ts s) as H.
  destruct (GeoData.search st ts 0); eauto.
Qed.




(** X24.  With [--max-delta] on the command line [main] geotags nothing:
    [args.max_delta] is a [str], so for the first photo either the
    timestamp cannot be read or [search] raises, and the run ends there
    with an exception (or [GeoData] could not be built).  No photo is
    changed and none is reported as processed. *)
Theorem main_given_max_delta (splitext : string → string * string) (a : args)
    (data : gmap string GeoData.content) (fs : files) (s : string) :
  max_delta a = Some s → paths a ≠ [] →
  ∃ (data' : gmap string GeoData.content) (e : GeoData.init_error),
    main splitext strptime mktime a data fs = (data', fs, [], Some e).
Proof.
  intros Hmd Hpaths. unfold main. rewrite Hmd.
  destruct (GeoData.__init__ splitext data (geo a)) as [[st data']|e]; [|by eauto].
  destruct (paths a) as [|p rest]; [done|]. simpl.
  assert (∃ e, photo_arg strptime mktime (dry_run a) (offset a) (GeoData.Text s)
                 st fs (__init__ p) = Raise e) as [e ->]; [|by eauto].
  unfold photo_arg.
  destruct (timestamp strptime mktime fs (__init__ p)) as [[jpg1 ts]|]; simpl; [|by eauto].
  destruct (search_arg_text_raises st (Qc_of_Z (ts + offset a)) s) as [e ->].
  by eauto.
Qed.

End MainProperties.

Section RunExamples.
Import piexif PyFloat JpegFile Main.


(** X20 at the photos of the examples: the photo with the hour 24 raises,
    and the photo after it is not looked at. *)
Lemma run_app_midnight :
  run Photos.strptime Photos.mktime false 0 (GeoData.Num (Qc_of_Z 900))
    Photos.index Photos.disk ([] ++ "midnight.jpg" :: ["plain.jpg"])
  = (Photos.disk, [],
     Some (AttributeError "type object 'datetime.datetime'" "timedelta")).
Proof.
  apply (proj2 (run_app Photos.strptime Photos.mktime false 0
                  (GeoData.Num (Qc_of_Z 900)) Photos.index Photos.disk
                  [] ["plain.jpg"])).
  - reflexivity.
  - vm_compute. reflexivity.
Defined.

(** X21 at the photo of the examples without geotag. *)
Lemma run_twice_plain :
  (∀ p, p ∈ ["plain.jpg"] →
     ∃ e', (<["plain.jpg" :=
               <["GPS" := gps_block "S" [(33, 1); (27, 1); (108, 5)]
                                    "E" [(151, 1); (12, 1); (837, 25)]]> Photos.plain]>
              Photos.disk) !! p = Some e' ∧ geotagged e')
  ∧ run Photos.strptime Photos.mktime false 0 (GeoData.Num (Qc_of_Z 900))
      Photos.index
      (<["plain.jpg" :=
           <["GPS" := gps_block "S" [(33, 1); (27, 1); (108, 5)]
                                "E" [(151, 1); (12, 1); (837, 25)]]> Photos.plain]>
         Photos.disk)
      ["plain.jpg"]
    = (<["plain.jpg" :=
           <["GPS" := gps_block "S" [(33, 1); (27, 1); (108, 5)]
                                "E" [(151, 1); (12, 1); (837, 25)]]> Photos.plain]>
         Photos.disk,
       replicate (length ["plain.jpg"]) AlreadyGeotagged, None).
Proof.
  apply (run_twice Photos.strptime Photos.mktime 0 (GeoData.Num (Qc_of_Z 900))
           Photos.index ["plain.jpg"] Photos.disk _ [Written]).
  vm_compute. reflexivity.
Defined.



(** X24 at the files of the examples, with [--max-delta 900]. *)
Lemma main_given_max_delta_plain :
  ∃ (data' : gmap string GeoData.content) (e : GeoData.init_error),
    main Photos.splitext Photos.strptime Photos.mktime
      (Args "history.json" 0 (Some "900") false ["plain.jpg"]) Photos.data Photos.disk
    = (data', Photos.disk, [], Some e).
Proof.
  apply (main_given_max_delta Photos.strptime Photos.mktime Photos.splitext
           (Args "history.json" 0 (Some "900") false ["plain.jpg"])
           Photos.data Photos.disk "900").
  - reflexivity.
  - discriminate.
Defined.

End RunExamples.
